(** * Realtime telemetry provider of openmct-yamcs: a shallow embedding

    The development follows [src/providers/realtime-telemetry-provider.js]:
    the [LimitEvaluator] class, and the [RealtimeTelemetryProvider] class
    with its websocket life cycle, its registry of listeners, its queue of
    outbound requests and its reconnect schedule.

    Modelling conventions.
    - A JavaScript object used as a dictionary ([this.listener], the two
      CSS tables) is an association list of its own properties, in the
      order [Object.keys] is defined on (array indices ascending, then the
      other keys in insertion order).  The registry [this.listener] is
      also read under names it does not hold, and such a read goes on to
      [Object.prototype]: [inheritedCall] says what calling the member
      found there does.  An assignment under [__proto__] replaces the
      prototype of the object instead of adding a key: the entry kept
      under that name stands for the prototype, and what a registry with
      a replaced prototype inherits from it is outside the model
      ([plainRegistry]).  The two CSS tables are read through
      [Object.prototype] as well ([tableValue]).
    - JavaScript numbers that are only tested and copied (alarm bounds) are
      IEEE-754 binary64 values ([spec_float]); the counters [seqNo] and
      [currentWaitIndex], which only count, are [Z] and [nat].
    - The browser (timers, sockets, the wire, the subscriber callbacks) is
      an explicit [Host] record next to the provider's fields; whether a
      given [socket.send] throws is decided by a pattern [sendFails] over
      the count of send calls made so far.
    - Methods are computations in a state-and-exception monad [M]; a
      [try]/[catch] of the source is [try_catch].
    - [console.log]/[warn]/[error] have no effect on the modelled state and
      are left out.  Subscriber callbacks are opaque: an invocation is
      recorded in [calls] and returns normally. *)

From Stdlib Require Import ZArith List String Ascii Bool Arith Lia.
From Stdlib Require Import DecimalString SpecFloat Permutation.
Import ListNotations.
Open Scope string_scope.
Set Warnings "-register-all".

(** ** Strings *)

(** The double quote character, for request texts. *)
Definition dq : string := String "034"%char EmptyString.

(** The line feed inside the multi-line template literals. *)
Definition nl : string := String "010"%char EmptyString.

(** Decimal rendering of an integer, as string concatenation does. *)
Definition string_of_Z (z : Z) : string := NilZero.string_of_int (Z.to_int z).

(** Truthiness of a string: only the empty string is falsy. *)
Definition truthy_string (s : string) : bool := negb (s =? "").

(** ** Numbers *)

(** A JavaScript number. *)
Definition Number : Type := spec_float.

(** The double nearest to an integer. *)
Definition number_of_Z (z : Z) : Number := binary_normalize 53 1024 z 0 false.

(** Truthiness of a number: [+0], [-0] and [NaN] are falsy. *)
Definition truthy_number (x : Number) : bool :=
  match x with
  | S754_zero _ => false
  | S754_nan => false
  | _ => true
  end.

(** Truthiness of an optional property holding a number. *)
Definition truthy_bound (x : option Number) : bool :=
  match x with
  | Some n => truthy_number n
  | None => false
  end.

(** ** Decoded JSON *)

Inductive Json : Type :=
| JUndefined
| JNull
| JBool (b : bool)
| JNum (n : Number)
| JStr (s : string)
| JArr (items : list Json)
| JObj (fields : list (string * Json)).

(** Exceptions the modelled code can raise. *)
Inductive Exception : Type :=
| TypeError
| SendError.

Fixpoint assoc {V : Type} (k : string) (l : list (string * V)) : option V :=
  match l with
  | [] => None
  | (k', v) :: rest => if k' =? k then Some v else assoc k rest
  end.

(** Property read [v.k] for the names the message handler reads ([dt],
    [data], [parameter], [id], [name], [generationTimeUTC], [engValue]):
    a [TypeError] on [undefined] and [null], the field of an object, and
    [undefined] on every other value, none of which defines these names. *)
Definition prop (v : Json) (k : string) : Exception + Json :=
  match v with
  | JUndefined => inl TypeError
  | JNull => inl TypeError
  | JObj fields =>
      match assoc k fields with
      | Some x => inr x
      | None => inr JUndefined
      end
  | _ => inr JUndefined
  end.

(** Strict equality [v === 'literal']. *)
Definition strict_eq_string (v : Json) (s : string) : bool :=
  match v with
  | JStr t => t =? s
  | _ => false
  end.

(** ** Objects used as dictionaries *)

Definition JsObject (V : Type) : Type := list (string * V).

Definition obj_get {V : Type} (k : string) (o : JsObject V) : option V :=
  assoc k o.

Definition obj_has {V : Type} (k : string) (o : JsObject V) : bool :=
  match obj_get k o with
  | Some _ => true
  | None => false
  end.

Fixpoint obj_replace {V : Type} (k : string) (v : V) (o : JsObject V)
  : JsObject V :=
  match o with
  | [] => []
  | (k', v') :: rest =>
      if k' =? k then (k', v) :: rest else (k', v') :: obj_replace k v rest
  end.

(** [o[k] = v]: an existing property keeps its place, a new one is added
    last.  Under the name [__proto__] the assignment does not add a
    property.  A function [v] becomes the prototype of [o], which a later
    read of [o.__proto__] returns: the entry kept under that name stands
    for the prototype, [obj_keys] does not list it and [obj_delete] does
    not remove it.  A string [v] is ignored, and [addSupportedTypes] does
    not get here with one. *)
Definition obj_set {V : Type} (k : string) (v : V) (o : JsObject V)
  : JsObject V :=
  if obj_has k o then obj_replace k v o else (o ++ [(k, v)])%list.

(** [delete o[k]]; [__proto__] is no own property, and there is nothing
    to delete under it. *)
Definition obj_delete {V : Type} (k : string) (o : JsObject V) : JsObject V :=
  if k =? "__proto__" then o
  else filter (fun kv => negb (fst kv =? k)) o.

(** A key is an array index when it is the canonical decimal text of an
    integer below [2^32 - 1]. *)
Definition arrayIndex (k : string) : option N :=
  match NilEmpty.uint_of_string k with
  | Some u =>
      let n := N.of_uint u in
      if (NilZero.string_of_uint (N.to_uint n) =? k)
         && (n <? 4294967295)%N
      then Some n else None
  | None => None
  end.

Definition isArrayIndex (k : string) : bool :=
  match arrayIndex k with
  | Some _ => true
  | None => false
  end.

Definition indexOf (k : string) : N :=
  match arrayIndex k with
  | Some n => n
  | None => 0%N
  end.

Fixpoint insertByIndex (k : string) (sorted : list string) : list string :=
  match sorted with
  | [] => [k]
  | k' :: rest =>
      if (indexOf k <=? indexOf k')%N then k :: sorted
      else k' :: insertByIndex k rest
  end.

Definition sortByIndex (ks : list string) : list string :=
  fold_right insertByIndex [] ks.

(** The names of the own properties, in the order of their creation. *)
Definition ownNames {V : Type} (o : JsObject V) : list string :=
  filter (fun k => negb (k =? "__proto__")) (map fst o).

(** [Object.keys(o)]. *)
Definition obj_keys {V : Type} (o : JsObject V) : list string :=
  (sortByIndex (filter isArrayIndex (ownNames o))
   ++ filter (fun k => negb (isArrayIndex k)) (ownNames o))%list.

(** The property names every plain object inherits from
    [Object.prototype]. *)
Definition objectPrototypeNames : list string :=
  ["constructor"; "__defineGetter__"; "__defineSetter__"; "hasOwnProperty";
   "__lookupGetter__"; "__lookupSetter__"; "isPrototypeOf";
   "propertyIsEnumerable"; "toString"; "valueOf"; "__proto__";
   "toLocaleString"].

Definition inheritedName (k : string) : bool :=
  existsb (String.eqb k) objectPrototypeNames.

(** What a read [o[k]] finds on an object whose prototype is
    [Object.prototype]: the value of an own property, a member of
    [Object.prototype] (a function, or the prototype itself, all of them
    truthy), or [undefined]. *)
Inductive Member (V : Type) : Type :=
| OwnValue (v : V)
| InheritedMember (name : string)
| NoMember.

Arguments OwnValue {V} v.
Arguments InheritedMember {V} name.
Arguments NoMember {V}.

Definition obj_read {V : Type} (k : string) (o : JsObject V) : Member V :=
  match obj_get k o with
  | Some v => OwnValue v
  | None => if inheritedName k then InheritedMember k else NoMember
  end.

(** ** The limit evaluator *)

(** CSS classes for Yamcs parameter monitoring result values. *)
Definition MONITORING_RESULT_CSS : JsObject string :=
  [ ("WATCH", "is-limit--yellow");
    ("WARNING", "is-limit--yellow");
    ("DISTRESS", "is-limit--red");
    ("CRITICAL", "is-limit--red");
    ("SEVERE", "is-limit--red") ].

(** CSS classes for Yamcs range condition values. *)
Definition RANGE_CONDITION_CSS : JsObject string :=
  [ ("LOW", "is-limit--lwr");
    ("HIGH", "is-limit--upr") ].

(** One entry of [datum.alarmRange]; an absent property is [None]. *)
Record AlarmRange : Type := {
  level : option string;
  minInclusive : option Number;
  minExclusive : option Number;
  maxInclusive : option Number;
  maxExclusive : option Number
}.

(** A telemetry point: the object built by the message handler, and the
    [datum] of the evaluator. *)
Record Datum : Type := {
  id : string;
  timestamp : Json;
  value : Json;
  monitoringResult : option string;
  rangeCondition : option string;
  alarmRange : option (list AlarmRange)
}.

(** What a CSS table yields under a name that the [in] operator accepts:
    the class of an own entry, or the member of [Object.prototype] of
    that name. *)
Inductive TableValue : Type :=
| OwnClass (css : string)
| PrototypeMember (name : string).

(** [k in table], and [table[k]] when it holds. *)
Definition tableValue (k : string) (table : JsObject string)
  : option TableValue :=
  match obj_get k table with
  | Some css => Some (OwnClass css)
  | None => if inheritedName k then Some (PrototypeMember k) else None
  end.

(** The value of [cssClass]: a text; a member of [Object.prototype] as it
    is, when the monitoring result is an inherited name and nothing is
    appended; or the concatenation around a space of the texts of two
    table values of which one at least is a member, whose text is the
    engine's. *)
Inductive CssClass : Type :=
| ClassText (text : string)
| ClassMember (name : string)
| ClassJoined (left right : TableValue).

Coercion ClassText : string >-> CssClass.

Definition classOf (v : TableValue) : CssClass :=
  match v with
  | OwnClass css => ClassText css
  | PrototypeMember name => ClassMember name
  end.

(** [cssClass += ' '] followed by [cssClass += right]. *)
Definition joinClasses (left right : TableValue) : CssClass :=
  match left, right with
  | OwnClass a, OwnClass b => ClassText (a ++ " " ++ b)
  | _, _ => ClassJoined left right
  end.

(** The object returned by [evaluate]; [low] and [high] are absent until
    [addLimitRange] sets them. *)
Record EvaluationResult : Type := {
  cssClass : CssClass;
  name : string;
  low : option Number;
  high : option Number
}.

Definition set_low (x : Number) (r : EvaluationResult) : EvaluationResult :=
  {| cssClass := cssClass r; name := name r; low := Some x; high := high r |}.

Definition set_high (x : Number) (r : EvaluationResult) : EvaluationResult :=
  {| cssClass := cssClass r; name := name r; low := low r; high := Some x |}.

Definition set_cssClass (c : CssClass) (r : EvaluationResult)
  : EvaluationResult :=
  {| cssClass := c; name := name r; low := low r; high := high r |}.

(** [range.level == result], [result] being a string. *)
Definition level_matches (result : string) (range : AlarmRange) : bool :=
  match level range with
  | Some l => l =? result
  | None => false
  end.

Module LimitEvaluator.

(** Finds the appropriate limit range for a monitoring result. *)
Definition findAlarmRange (datum : Datum) (result : string)
  : option AlarmRange :=
  match alarmRange datum with
  | Some ranges => find (level_matches result) ranges
  | None => None
  end.

(** One guarded assignment [if (x) { evaluationResult.f = x }]. *)
Definition assign_if_truthy
  (setter : Number -> EvaluationResult -> EvaluationResult)
  (x : option Number) (r : EvaluationResult) : EvaluationResult :=
  match x with
  | Some n => if truthy_number n then setter n r else r
  | None => r
  end.

(** Adds limit range information to the evaluation result. *)
Definition addLimitRange (datum : Datum) (result : string)
  (evaluationResult : EvaluationResult) : EvaluationResult :=
  match findAlarmRange datum result with
  | None => evaluationResult
  | Some range =>
      let r1 := assign_if_truthy set_low (minInclusive range) evaluationResult in
      let r2 := assign_if_truthy set_low (minExclusive range) r1 in
      let r3 := assign_if_truthy set_high (maxInclusive range) r2 in
      assign_if_truthy set_high (maxExclusive range) r3
  end.

(** Evaluates a telemetry point for limit violations; [None] is the
    [undefined] returned when the function falls off its end. *)
Definition evaluate (datum : Datum) (valueMetadata : Json)
  : option EvaluationResult :=
  match monitoringResult datum with
  | None => None
  | Some mr =>
      match (if truthy_string mr then tableValue mr MONITORING_RESULT_CSS
             else None) with
      | None => None
      | Some css =>
          let evaluationResult :=
            {| cssClass := classOf css; name := mr;
               low := None; high := None |} in
          match rangeCondition datum with
          | None => Some evaluationResult
          | Some rc =>
              match (if truthy_string rc
                     then tableValue rc RANGE_CONDITION_CSS
                     else None) with
              | None => Some evaluationResult
              | Some rcss =>
                  Some (addLimitRange datum mr
                          (set_cssClass (joinClasses css rcss)
                             evaluationResult))
              end
          end
      end
  end.

End LimitEvaluator.

(** The severities the evaluator recognises, and the range conditions. *)
Definition recognizedSeverities : list string :=
  ["WATCH"; "WARNING"; "DISTRESS"; "CRITICAL"; "SEVERE"].

Definition recognizedConditions : list string := ["LOW"; "HIGH"].

(** A bound that is absent or zero. *)
Definition zeroOrAbsent (x : option Number) : Prop :=
  x = None \/ exists s, x = Some (S754_zero s).

(** ** The provider and its host *)

Definition WS_IDLE_INTERVAL_MS : Z := 10000.

Definition FALLBACK_AND_WAIT_MS : list Z :=
  [1000; 5000; 5000; 10000; 10000; 30000]%Z.

(** The delay handed to [setTimeout]: a number of milliseconds, or
    [undefined] when the schedule is read past its end. *)
Inductive Delay : Type :=
| Milliseconds (ms : Z)
| UndefinedDelay.

(** [FALLBACK_AND_WAIT_MS[i]]. *)
Definition waitAt (i : nat) : Delay :=
  match nth_error FALLBACK_AND_WAIT_MS i with
  | Some ms => Milliseconds ms
  | None => UndefinedDelay
  end.

Record Identifier : Type := { key : string }.

Record DomainObject : Type := { identifier : Identifier; type : string }.

(** What a subscriber callback is called with: a telemetry point, the
    data of an event, or no argument at all. *)
Inductive Delivery : Type :=
| DeliverPoint (point : Datum)
| DeliverEvent (data : Json)
| DeliverNothing.

(** The closure returned by [subscribe]; it captures [id]. *)
Inductive UnsubscribeHandle : Type :=
| TelemetryHandle (id : string)
| EventHandle (id : string).

(** The result of [sendOrQueueRequest]: [true], or [undefined]. *)
Inductive SendOutcome : Type :=
| ReturnedTrue
| ReturnedUndefined.

(** The request texts. *)
Definition idleTlmRequest : string :=
  "{" ++ dq ++ "parameter" ++ dq ++ ": " ++ dq ++ "subscribe" ++ dq ++ ", "
  ++ dq ++ "data" ++ dq ++ ": { " ++ dq ++ "id" ++ dq ++ ": [] }}".

Definition templateIndent : string := "                     ".

Definition tlmSubscribeRequest (id : string) : string :=
  "{" ++ dq ++ "parameter" ++ dq ++ ": " ++ dq ++ "subscribe" ++ dq ++ ","
  ++ nl ++ templateIndent
  ++ dq ++ "data" ++ dq ++ ": { " ++ dq ++ "id" ++ dq ++ ": [{ "
  ++ dq ++ "name" ++ dq ++ ": " ++ dq ++ id ++ dq ++ " }],"
  ++ nl ++ templateIndent
  ++ dq ++ "sendFromCache" ++ dq ++ ": false }}".

(** The template renders a missing argument as the text [undefined]. *)
Definition tlmUnsubscribeRequest (id : option string) : string :=
  "{" ++ dq ++ "parameter" ++ dq ++ ": " ++ dq ++ "unsubscribe" ++ dq ++ ","
  ++ nl ++ templateIndent
  ++ dq ++ "data" ++ dq ++ ": { " ++ dq ++ "id" ++ dq ++ ": [{ "
  ++ dq ++ "name" ++ dq ++ ": " ++ dq
  ++ match id with Some s => s | None => "undefined" end
  ++ dq ++ " }] }}".

Definition eventSubscribeRequest : string := "{'events': 'subscribe'}".

Definition eventUnsubscribeRequest : string := "{'events': 'unsubscribe'}".

(** The payload [sendRequest] puts on the wire. *)
Definition frame (seq : Z) (request : string) : string :=
  "[1, 1, " ++ string_of_Z seq ++ ", " ++ request ++ "]".

Arguments frame : simpl never.
Arguments idleTlmRequest : simpl never.
Arguments tlmSubscribeRequest : simpl never.
Arguments tlmUnsubscribeRequest : simpl never.
Arguments eventSubscribeRequest : simpl never.
Arguments eventUnsubscribeRequest : simpl never.

(** The payloads of consecutive sends starting after sequence number
    [seq]. *)
Fixpoint frames (seq : Z) (rs : list string) : list string :=
  match rs with
  | [] => []
  | r :: rest => frame (seq + 1) r :: frames (seq + 1) rest
  end.

(** The text of the messages written out a second time, for the
    statements that say what goes on the wire: the subscribe request of a
    parameter by its qualified name, the subscribe request of the events,
    and the numbered payloads around a list of requests. *)
Definition spec_parameterSubscribe (qualifiedName : string) : string :=
  "{" ++ dq ++ "parameter" ++ dq ++ ": " ++ dq ++ "subscribe" ++ dq ++ ","
  ++ nl ++ "                     "
  ++ dq ++ "data" ++ dq ++ ": { " ++ dq ++ "id" ++ dq ++ ": [{ "
  ++ dq ++ "name" ++ dq ++ ": " ++ dq ++ qualifiedName ++ dq ++ " }],"
  ++ nl ++ "                     "
  ++ dq ++ "sendFromCache" ++ dq ++ ": false }}".


Fixpoint spec_payloads (seq : Z) (rs : list string) : list string :=
  match rs with
  | [] => []
  | r :: rest =>
      ("[1, 1, " ++ string_of_Z (seq + 1) ++ ", " ++ r ++ "]")
      :: spec_payloads (seq + 1) rest
  end.

(** ** The types the provider supports *)

(** [addSupportedTypes], on the list [Object.values(OBJECT_TYPES)] of
    [../const]: every type is entered under its own name.  The value
    assigned is a string, and assigning a string under [__proto__] does
    nothing. *)
Definition addSupportedTypes (types : list string)
  (supportedTypes : JsObject string) : JsObject string :=
  fold_left
    (fun o type => if type =? "__proto__" then o else obj_set type type o)
    types supportedTypes.

(** [supportsSubscribe]: what the read [this.supportedTypes[type]] finds
    for the object's type. *)
Definition supportsSubscribe (supportedTypes : JsObject string)
  (domainObject : DomainObject) : Member string :=
  obj_read (type domainObject) supportedTypes.


(** ** A sample instance

    The provider is parametric in its collaborators. The closed examples
    run it with the following stand-ins: channel identifiers and
    qualified names differ in their separator ([~] against [/]), values
    are passed through, and no limit information is attached. *)

Definition SAMPLE_EVENTS_OBJECT_TYPE : string := "yamcs.events".

Fixpoint replaceChar (from to : ascii) (s : string) : string :=
  match s with
  | EmptyString => EmptyString
  | String c rest =>
      String (if Ascii.eqb c from then to else c) (replaceChar from to rest)
  end.

Definition sampleIdToQualifiedName (id : string) : string :=
  replaceChar "~"%char "/"%char id.

Definition sampleQualifiedNameToId (name : Json) : string :=
  match name with
  | JStr s => replaceChar "/"%char "~"%char s
  | _ => "undefined"
  end.

Definition sampleGetValue (engValue : Json) : Json := engValue.

Definition sampleAddLimitInformation (parameter : Json) (point : Datum)
  : Datum := point.

(** Send-failure patterns: no send throws; only the send made after [n]
    earlier ones throws. *)
Definition neverFails (k : nat) : bool := false.

Definition failsOnlyAt (n k : nat) : bool := Nat.eqb k n.

Definition sampleObject (id : string) : DomainObject :=
  {| identifier := {| key := id |}; type := "yamcs.telemetry" |}.

Definition channelA : DomainObject := sampleObject "~sim~A".

Definition eventChannel : DomainObject :=
  sampleObject SAMPLE_EVENTS_OBJECT_TYPE.

(** An alarm-range entry, and a telemetry point of channel A with the
    given limit fields. *)
Definition sampleRange (lvl : string)
  (mini minx maxi maxx : option Number) : AlarmRange :=
  {| level := Some lvl; minInclusive := mini; minExclusive := minx;
     maxInclusive := maxi; maxExclusive := maxx |}.

Definition sampleDatum (mr rc : option string)
  (ranges : option (list AlarmRange)) : Datum :=
  {| id := "~sim~A"; timestamp := JStr "2020-01-01T00:00:00Z";
     value := JNum (number_of_Z 50);
     monitoringResult := mr; rangeCondition := rc; alarmRange := ranges |}.

(** One parameter update for the qualified name [nm], and a four-element
    frame around a body. *)
Definition sampleUpdate (nm : string) : Json :=
  JObj [("id", JObj [("name", JStr nm)]);
        ("generationTimeUTC", JStr "2020-01-01T00:00:00Z");
        ("engValue", JNum (number_of_Z 7))].

Definition sampleFrame (body : Json) : list Json :=
  [JNum (number_of_Z 1); JNum (number_of_Z 0); JNum (number_of_Z 5); body].

Section Provider.

(** The type of subscriber callbacks, supplied by the host application. *)
Context {Callback : Type}.

(** [OBJECT_TYPES.EVENTS_OBJECT_TYPE] of [../const]. *)
Variable EVENTS_OBJECT_TYPE : string.

(** The collaborators imported from [../utils.js]. *)
Variable idToQualifiedName : string -> string.
Variable qualifiedNameToId : Json -> string.
Variable getValue : Json -> Json.
Variable addLimitInformation : Json -> Datum -> Datum.

(** The send-failure pattern: [sendFails k] tells whether the call of
    [socket.send] made after [k] earlier calls throws. *)
Variable sendFails : nat -> bool.

(** The fields of [this]. [None] in the last three is an absent
    property. *)
Record RealtimeTelemetryProvider : Type := {
  url : string;
  instance : string;
  seqNo : Z;
  connected : bool;
  listener : JsObject Callback;
  requests : list string;
  currentWaitIndex : nat;
  socket : option nat;
  reconnectTimeout : option positive;
  keepAliveInterval : option positive
}.

(** The browser side: pending timeouts with their delay, running
    intervals, the next timer identifier, the sockets created (by URL),
    the number of [socket.send] calls made, the payloads accepted by the
    socket, and the callback invocations, oldest first. *)
Record Host : Type := {
  timeouts : list (positive * Delay);
  intervals : list (positive * Z);
  nextTimerId : positive;
  sockets : list string;
  attempts : nat;
  wire : list string;
  calls : list (Callback * Delivery)
}.

Record World : Type := { this : RealtimeTelemetryProvider; host : Host }.

Definition set_seqNo (x : Z) (p : RealtimeTelemetryProvider) :=
  {| url := url p; instance := instance p; seqNo := x;
     connected := connected p; listener := listener p;
     requests := requests p; currentWaitIndex := currentWaitIndex p;
     socket := socket p; reconnectTimeout := reconnectTimeout p;
     keepAliveInterval := keepAliveInterval p |}.

Definition set_connected (x : bool) (p : RealtimeTelemetryProvider) :=
  {| url := url p; instance := instance p; seqNo := seqNo p;
     connected := x; listener := listener p;
     requests := requests p; currentWaitIndex := currentWaitIndex p;
     socket := socket p; reconnectTimeout := reconnectTimeout p;
     keepAliveInterval := keepAliveInterval p |}.

Definition set_listener (x : JsObject Callback)
  (p : RealtimeTelemetryProvider) :=
  {| url := url p; instance := instance p; seqNo := seqNo p;
     connected := connected p; listener := x;
     requests := requests p; currentWaitIndex := currentWaitIndex p;
     socket := socket p; reconnectTimeout := reconnectTimeout p;
     keepAliveInterval := keepAliveInterval p |}.

Definition set_requests (x : list string) (p : RealtimeTelemetryProvider) :=
  {| url := url p; instance := instance p; seqNo := seqNo p;
     connected := connected p; listener := listener p;
     requests := x; currentWaitIndex := currentWaitIndex p;
     socket := socket p; reconnectTimeout := reconnectTimeout p;
     keepAliveInterval := keepAliveInterval p |}.

Definition set_currentWaitIndex (x : nat) (p : RealtimeTelemetryProvider) :=
  {| url := url p; instance := instance p; seqNo := seqNo p;
     connected := connected p; listener := listener p;
     requests := requests p; currentWaitIndex := x;
     socket := socket p; reconnectTimeout := reconnectTimeout p;
     keepAliveInterval := keepAliveInterval p |}.

Definition set_socket (x : option nat) (p : RealtimeTelemetryProvider) :=
  {| url := url p; instance := instance p; seqNo := seqNo p;
     connected := connected p; listener := listener p;
     requests := requests p; currentWaitIndex := currentWaitIndex p;
     socket := x; reconnectTimeout := reconnectTimeout p;
     keepAliveInterval := keepAliveInterval p |}.

Definition set_reconnectTimeout (x : option positive)
  (p : RealtimeTelemetryProvider) :=
  {| url := url p; instance := instance p; seqNo := seqNo p;
     connected := connected p; listener := listener p;
     requests := requests p; currentWaitIndex := currentWaitIndex p;
     socket := socket p; reconnectTimeout := x;
     keepAliveInterval := keepAliveInterval p |}.

Definition set_keepAliveInterval (x : option positive)
  (p : RealtimeTelemetryProvider) :=
  {| url := url p; instance := instance p; seqNo := seqNo p;
     connected := connected p; listener := listener p;
     requests := requests p; currentWaitIndex := currentWaitIndex p;
     socket := socket p; reconnectTimeout := reconnectTimeout p;
     keepAliveInterval := x |}.

(** *** The monad *)

Inductive Completion (A : Type) : Type :=
| Normal (a : A) (w : World)
| Throw (e : Exception) (w : World).

Arguments Normal {A} a w.
Arguments Throw {A} e w.

Definition M (A : Type) : Type := World -> Completion A.

Definition ret {A : Type} (a : A) : M A := fun w => Normal a w.

Definition bind {A B : Type} (m : M A) (k : A -> M B) : M B :=
  fun w =>
    match m w with
    | Normal a w' => k a w'
    | Throw e w' => Throw e w'
    end.

Definition throw {A : Type} (e : Exception) : M A := fun w => Throw e w.

Definition try_catch {A : Type} (m : M A) (handler : Exception -> M A)
  : M A :=
  fun w =>
    match m w with
    | Normal a w' => Normal a w'
    | Throw e w' => handler e w'
    end.

Definition lift {A : Type} (r : Exception + A) : M A :=
  match r with
  | inl e => throw e
  | inr a => ret a
  end.

Notation "x <- m ;; k" := (bind m (fun x => k))
  (at level 61, m at next level, right associativity).
Notation "m ;; k" := (bind m (fun _ => k))
  (at level 61, right associativity).

Definition getThis : M RealtimeTelemetryProvider :=
  fun w => Normal (this w) w.

Definition modifyThis
  (f : RealtimeTelemetryProvider -> RealtimeTelemetryProvider) : M unit :=
  fun w => Normal tt {| this := f (this w); host := host w |}.

Definition getHost : M Host := fun w => Normal (host w) w.

Definition modifyHost (f : Host -> Host) : M unit :=
  fun w => Normal tt {| this := this w; host := f (host w) |}.

Fixpoint forEach {A : Type} (f : A -> M unit) (l : list A) : M unit :=
  match l with
  | [] => ret tt
  | x :: rest => f x ;; forEach f rest
  end.

(** *** Host operations *)

(** [setTimeout(callback, delay)]; the only callback ever scheduled is the
    reconnect closure, run by [reconnectTimerFires]. *)
Definition setTimeout (delay : Delay) : M positive :=
  h <- getHost ;;
  let t := nextTimerId h in
  modifyHost (fun h =>
    {| timeouts := (timeouts h ++ [(t, delay)])%list;
       intervals := intervals h;
       nextTimerId := Pos.succ t; sockets := sockets h;
       attempts := attempts h; wire := wire h; calls := calls h |}) ;;
  ret t.

Definition dropTimeout (t : positive) (h : Host) : Host :=
  {| timeouts := filter (fun e => negb (Pos.eqb (fst e) t)) (timeouts h);
     intervals := intervals h;
     nextTimerId := nextTimerId h; sockets := sockets h;
     attempts := attempts h; wire := wire h; calls := calls h |}.

(** [clearTimeout(handle)]; nothing happens on [undefined]. *)
Definition clearTimeout (handle : option positive) : M unit :=
  match handle with
  | Some t => modifyHost (dropTimeout t)
  | None => ret tt
  end.

(** [setInterval(callback, ms)]; the only callback is [idleSubscribe]. *)
Definition setInterval (ms : Z) : M positive :=
  h <- getHost ;;
  let t := nextTimerId h in
  modifyHost (fun h =>
    {| timeouts := timeouts h;
       intervals := (intervals h ++ [(t, ms)])%list;
       nextTimerId := Pos.succ t; sockets := sockets h;
       attempts := attempts h; wire := wire h; calls := calls h |}) ;;
  ret t.

(** [new WebSocket(wsUrl)]; the URL is taken to be well formed, so that the
    constructor does not throw. *)
Definition newWebSocket (wsUrl : string) : M nat :=
  h <- getHost ;;
  modifyHost (fun h =>
    {| timeouts := timeouts h; intervals := intervals h;
       nextTimerId := nextTimerId h;
       sockets := (sockets h ++ [wsUrl])%list;
       attempts := attempts h; wire := wire h; calls := calls h |}) ;;
  ret (List.length (sockets h)).

Definition recordAttempt (accepted : option string) (h : Host) : Host :=
  {| timeouts := timeouts h; intervals := intervals h;
     nextTimerId := nextTimerId h; sockets := sockets h;
     attempts := S (attempts h);
     wire := match accepted with
             | Some payload => (wire h ++ [payload])%list
             | None => wire h
             end;
     calls := calls h |}.

(** [this.socket.send(payload)]: a [TypeError] when there is no socket,
    otherwise the send-failure pattern decides. *)
Definition socketSend (s : option nat) (payload : string) : M unit :=
  match s with
  | None => throw TypeError
  | Some _ =>
      h <- getHost ;;
      if sendFails (attempts h)
      then modifyHost (recordAttempt None) ;; throw SendError
      else modifyHost (recordAttempt (Some payload))
  end.

Definition recordCall (callback : Callback) (arg : Delivery) (h : Host)
  : Host :=
  {| timeouts := timeouts h; intervals := intervals h;
     nextTimerId := nextTimerId h; sockets := sockets h;
     attempts := attempts h; wire := wire h;
     calls := (calls h ++ [(callback, arg)])%list |}.

(** Calling a subscriber callback. *)
Definition invoke (callback : Callback) (arg : Delivery) : M unit :=
  modifyHost (recordCall callback arg).

(** *** The methods of the provider *)

(** The state built by the constructor, in a host that has done nothing
    yet. *)
Definition constructor (url instance : string) : World :=
  {| this := {| url := url; instance := instance; seqNo := 0;
                connected := false; listener := []; requests := [];
                currentWaitIndex := 0; socket := None;
                reconnectTimeout := None; keepAliveInterval := None |};
     host := {| timeouts := []; intervals := []; nextTimerId := 1;
                sockets := []; attempts := 0; wire := []; calls := [] |} |}.

Definition sendRequest (request : string) : M unit :=
  modifyThis (fun p => set_seqNo (seqNo p + 1) p) ;;
  p <- getThis ;;
  socketSend (socket p) (frame (seqNo p) request).

Definition reconnect : M unit :=
  p <- getThis ;;
  match reconnectTimeout p with
  | Some _ => ret tt
  | None =>
      t <- setTimeout (waitAt (currentWaitIndex p)) ;;
      modifyThis (set_reconnectTimeout (Some t)) ;;
      if (currentWaitIndex p <? List.length FALLBACK_AND_WAIT_MS)%nat
      then modifyThis (set_currentWaitIndex (S (currentWaitIndex p)))
      else ret tt
  end.

Definition pushRequest (request : string) : M unit :=
  modifyThis (fun p => set_requests (requests p ++ [request])%list p).

Definition sendOrQueueRequest (request : string) : M SendOutcome :=
  p <- getThis ;;
  if connected p then
    try_catch
      (sendRequest request ;; ret ReturnedTrue)
      (fun _ =>
         modifyThis (set_connected false) ;;
         pushRequest request ;;
         reconnect ;;
         ret ReturnedUndefined)
  else
    pushRequest request ;;
    ret ReturnedUndefined.

Definition idleTlmSubscribe : M unit :=
  sendOrQueueRequest idleTlmRequest ;; ret tt.

Definition tlmSubscribe (id : string) : M unit :=
  sendOrQueueRequest (tlmSubscribeRequest id) ;; ret tt.

Definition eventSubscribe : M unit :=
  sendOrQueueRequest eventSubscribeRequest ;; ret tt.

Definition tlmUnsubscribe (id : option string) : M unit :=
  sendOrQueueRequest (tlmUnsubscribeRequest id) ;; ret tt.

Definition eventUnsubscribe : M unit :=
  sendOrQueueRequest eventUnsubscribeRequest ;; ret tt.

(** The callback of the [filter] in [flushQueue], over the whole array:
    the requests kept, and [shouldReconnect]. *)
Fixpoint flushFilter (rs : list string) (shouldReconnect : bool)
  : M (list string * bool) :=
  match rs with
  | [] => ret ([], shouldReconnect)
  | request :: rest =>
      keep <- try_catch
                (sendRequest request ;; ret false)
                (fun _ => modifyThis (set_connected false) ;; ret true) ;;
      r <- flushFilter rest (shouldReconnect || keep) ;;
      ret (if keep then request :: fst r else fst r, snd r)
  end.

Definition flushQueue : M unit :=
  p <- getThis ;;
  r <- flushFilter (requests p) false ;;
  modifyThis (set_requests (fst r)) ;;
  if snd r then reconnect else ret tt.

Definition resubscribeToAll : M unit :=
  p <- getThis ;;
  forEach
    (fun id =>
       if id =? EVENTS_OBJECT_TYPE then eventSubscribe
       else tlmSubscribe (idToQualifiedName id))
    (obj_keys (listener p)).

Definition idleSubscribe : M unit :=
  p <- getThis ;;
  forEach
    (fun id =>
       if id =? EVENTS_OBJECT_TYPE then eventSubscribe
       else idleTlmSubscribe)
    (obj_keys (listener p)).

Definition subscribeToTelemetry (name id : string) : M UnsubscribeHandle :=
  p <- getThis ;;
  (if connected p then tlmSubscribe name else ret tt) ;;
  ret (TelemetryHandle id).

Definition subscribeToEvent (id : string) : M UnsubscribeHandle :=
  p <- getThis ;;
  (if connected p then eventSubscribe else ret tt) ;;
  ret (EventHandle id).

Definition subscribe (domainObject : DomainObject) (callback : Callback)
  : M UnsubscribeHandle :=
  let id := key (identifier domainObject) in
  modifyThis (fun p => set_listener (obj_set id callback (listener p)) p) ;;
  if id =? EVENTS_OBJECT_TYPE then subscribeToEvent id
  else subscribeToTelemetry (idToQualifiedName id) id.

(** Calling the closure returned by [subscribe]. *)
Definition unsubscribe (h : UnsubscribeHandle) : M unit :=
  match h with
  | TelemetryHandle id =>
      tlmUnsubscribe None ;;
      modifyThis (fun p => set_listener (obj_delete id (listener p)) p)
  | EventHandle id =>
      eventUnsubscribe ;;
      modifyThis (fun p => set_listener (obj_delete id (listener p)) p)
  end.

Definition connect : M unit :=
  p <- getThis ;;
  if connected p then ret tt
  else
    let wsUrl := url p ++ "_websocket/" ++ instance p in
    modifyThis (set_seqNo 0) ;;
    modifyThis (set_connected false) ;;
    s <- newWebSocket wsUrl ;;
    modifyThis (set_socket (Some s)).

Definition onopen : M unit :=
  p <- getThis ;;
  clearTimeout (reconnectTimeout p) ;;
  i <- setInterval WS_IDLE_INTERVAL_MS ;;
  modifyThis (set_keepAliveInterval (Some i)) ;;
  modifyThis (set_connected true) ;;
  modifyThis (set_currentWaitIndex 0) ;;
  resubscribeToAll ;;
  flushQueue.

(** The object literal [point] of the message handler, after
    [addLimitInformation(parameter, point)]; the property reads may
    throw. *)
Definition buildPoint (parameter : Json) : Exception + Datum :=
  match prop parameter "id" with
  | inl e => inl e
  | inr pid =>
      match prop pid "name" with
      | inl e => inl e
      | inr pname =>
          match prop parameter "generationTimeUTC" with
          | inl e => inl e
          | inr generationTimeUTC =>
              match prop parameter "engValue" with
              | inl e => inl e
              | inr engValue =>
                  inr (addLimitInformation parameter
                         {| id := qualifiedNameToId pname;
                            timestamp := generationTimeUTC;
                            value := getValue engValue;
                            monitoringResult := None;
                            rangeCondition := None;
                            alarmRange := None |})
              end
          end
      end
  end.

(** Whether the conversion of a decoded value to a property key throws:
    it does on an object that has a property [toString] of its own
    (which, coming from JSON, is no function), and on an array one of
    whose elements does. *)
Fixpoint keyConversionFails (v : Json) : bool :=
  match v with
  | JObj fields => existsb (fun kv => fst kv =? "toString") fields
  | JArr items => existsb keyConversionFails items
  | _ => false
  end.

(** The same for the argument of a callback; the point built by the
    handler has no such property. *)
Definition argumentKeyFails (arg : Delivery) : bool :=
  match arg with
  | DeliverEvent d => keyConversionFails d
  | _ => false
  end.

(** [if (this.listener[k]) { this.listener[k](arg) }] for a name [k] the
    registry does not hold, its prototype being [Object.prototype].  A
    name that [Object.prototype] does not define either reads as
    [undefined], and nothing is called.  The other names read as a member
    of [Object.prototype], which is truthy, and the call is made with the
    registry as [this]: [__proto__] is the prototype object itself, not a
    function, and [__defineGetter__] and [__defineSetter__] reject a call
    without an accessor function, so these three end in a [TypeError];
    [hasOwnProperty], [propertyIsEnumerable], [__lookupGetter__] and
    [__lookupSetter__] convert the argument to a property key, which may
    throw, and change nothing; [toLocaleString] calls [this.toString()],
    which is the callback registered under [toString] when there is one,
    called without an argument; the remaining members compute a result
    and change nothing. *)
Definition inheritedCall (l : JsObject Callback) (k : string)
  (arg : Delivery) : M unit :=
  if (k =? "__proto__") || (k =? "__defineGetter__")
     || (k =? "__defineSetter__")
  then throw TypeError
  else if (k =? "hasOwnProperty") || (k =? "propertyIsEnumerable")
          || (k =? "__lookupGetter__") || (k =? "__lookupSetter__")
  then (if argumentKeyFails arg then throw TypeError else ret tt)
  else if k =? "toLocaleString" then
    match obj_get "toString" l with
    | Some callback => invoke callback DeliverNothing
    | None => ret tt
    end
  else ret tt.

(** The body of the [forEach] over [data[3].data.parameter]. *)
Definition onParameter (parameter : Json) : M unit :=
  point <- lift (buildPoint parameter) ;;
  p <- getThis ;;
  match obj_get (id point) (listener p) with
  | Some callback => invoke callback (DeliverPoint point)
  | None => inheritedCall (listener p) (id point) (DeliverPoint point)
  end.

(** [x.forEach(f)] on a decoded value: only an array has the method. *)
Definition jsonForEach (f : Json -> M unit) (x : Json) : M unit :=
  match x with
  | JArr items => forEach f items
  | _ => throw TypeError
  end.

(** The message handler, on the array decoded from [event.data]. *)
Definition onmessage (data : list Json) : M unit :=
  if (List.length data <? 4)%nat then ret tt
  else
    let body := nth 3 data JUndefined in
    dataType <- lift (prop body "dt") ;;
    (if strict_eq_string dataType "PARAMETER" then
       d <- lift (prop body "data") ;;
       ps <- lift (prop d "parameter") ;;
       jsonForEach onParameter ps
     else ret tt) ;;
    (if strict_eq_string dataType "EVENT" then
       p <- getThis ;;
       match obj_get EVENTS_OBJECT_TYPE (listener p) with
       | Some callback =>
           d <- lift (prop body "data") ;;
           invoke callback (DeliverEvent d)
       | None =>
           if inheritedName EVENTS_OBJECT_TYPE then
             d <- lift (prop body "data") ;;
             inheritedCall (listener p) EVENTS_OBJECT_TYPE (DeliverEvent d)
           else ret tt
       end
     else ret tt).

Definition onerror : M unit :=
  modifyThis (set_connected false) ;;
  reconnect.

Definition onclose : M unit :=
  modifyThis (set_connected false) ;;
  reconnect.

(** The closure given to [setTimeout] by [reconnect], run by the host when
    timer [t] is still pending. *)
Definition reconnectTimerFires (t : positive) : M unit :=
  h <- getHost ;;
  if existsb (fun e => Pos.eqb (fst e) t) (timeouts h) then
    modifyHost (dropTimeout t) ;;
    connect ;;
    modifyThis (set_reconnectTimeout None)
  else ret tt.

(** The callback given to [setInterval] by the open handler, run by the
    host for an interval [t] that is running. *)
Definition keepAliveFires (t : positive) : M unit :=
  h <- getHost ;;
  if existsb (fun e => Pos.eqb (fst e) t) (intervals h) then idleSubscribe
  else ret tt.

(** *** The provider as a state machine *)

(** Everything that can happen to a provider: calls by the application,
    socket events, and timers. *)
Inductive Event : Type :=
| CallConnect
| CallSubscribe (domainObject : DomainObject) (callback : Callback)
| CallUnsubscribe (h : UnsubscribeHandle)
| SocketOpen
| SocketMessage (data : list Json)
| SocketError
| SocketClose
| ReconnectTimer (t : positive)
| KeepAliveTick (t : positive).

Definition step (e : Event) : M unit :=
  match e with
  | CallConnect => connect
  | CallSubscribe domainObject callback =>
      subscribe domainObject callback ;; ret tt
  | CallUnsubscribe h => unsubscribe h
  | SocketOpen => onopen
  | SocketMessage data => onmessage data
  | SocketError => onerror
  | SocketClose => onclose
  | ReconnectTimer t => reconnectTimerFires t
  | KeepAliveTick t => keepAliveFires t
  end.

(** The state reached by a run of events; an uncaught exception ends the
    handler it occurs in and leaves the state as it was at that point. *)
Definition stateOf {A : Type} (c : Completion A) : World :=
  match c with
  | Normal _ w => w
  | Throw _ w => w
  end.

Fixpoint run (es : list Event) (w : World) : World :=
  match es with
  | [] => w
  | e :: rest => run rest (stateOf (step e w))
  end.

(** The delay of the reconnect timer now pending, if one is. *)
Definition scheduledDelay (w : World) : option Delay :=
  match reconnectTimeout (this w) with
  | Some t =>
      option_map snd
        (find (fun e => Pos.eqb (fst e) t) (timeouts (host w)))
  | None => None
  end.

(** One failed connection attempt: the pending reconnect timer (if any)
    fires and opens a socket, which reports an error and closes. *)
Definition failedAttempt : M unit :=
  p <- getThis ;;
  match reconnectTimeout p with
  | Some t => reconnectTimerFires t
  | None => ret tt
  end ;;
  onerror ;;
  onclose.

Fixpoint consecutiveFailures (n : nat) : M unit :=
  match n with
  | O => ret tt
  | S k => consecutiveFailures k ;; failedAttempt
  end.


(** *** Vocabulary of the statements *)

(** The request one iteration of [resubscribeToAll] hands to
    [sendOrQueueRequest] for key [id]. *)
Definition resubscribeRequest (id : string) : string :=
  if id =? EVENTS_OBJECT_TYPE then eventSubscribeRequest
  else tlmSubscribeRequest (idToQualifiedName id).

(** The callback of the [forEach] in [resubscribeToAll]. *)
Definition sweepBody (id : string) : M unit :=
  if id =? EVENTS_OBJECT_TYPE then eventSubscribe
  else tlmSubscribe (idToQualifiedName id).

(** Under the send-failure pattern, with [k] sends made before: the
    requests of [rs] whose send throws, ... *)
Fixpoint keptFrom (k : nat) (rs : list string) : list string :=
  match rs with
  | [] => []
  | r :: rest =>
      if sendFails k then r :: keptFrom (S k) rest else keptFrom (S k) rest
  end.

(** ... the payloads of those whose send goes through, numbered after
    [seq], ... *)
Fixpoint sentFrom (k : nat) (seq : Z) (rs : list string) : list string :=
  match rs with
  | [] => []
  | r :: rest =>
      if sendFails k then sentFrom (S k) (seq + 1) rest
      else frame (seq + 1) r :: sentFrom (S k) (seq + 1) rest
  end.

(** ... and whether any of them throws. *)
Fixpoint anyFails (k : nat) (n : nat) : bool :=
  match n with
  | O => false
  | S m => sendFails k || anyFails (S k) m
  end.

(** The registry holds at most one entry per identifier. *)
Definition registry_ok (w : World) : Prop :=
  NoDup (map fst (listener (this w))).

(** The registry still has the prototype it was created with: no
    callback was registered under [__proto__]. *)
Definition plainRegistry (w : World) : Prop :=
  obj_has "__proto__" (listener (this w)) = false.

(** A well-formed registry stays so. *)
Definition registryKept (w w' : World) : Prop :=
  registry_ok w -> registry_ok w'.

(** The retry index stays within the length of the schedule. *)
Definition indexBounded (w w' : World) : Prop :=
  (currentWaitIndex (this w) <= List.length FALLBACK_AND_WAIT_MS)%nat ->
  (currentWaitIndex (this w') <= List.length FALLBACK_AND_WAIT_MS)%nat.

(** The state between two failed connection attempts, [k] of which have
    happened since the retry index was last zero: disconnected, the index
    advanced [k] times up to the length of the schedule, the timer
    identifiers in use all older than the next one, and, once an attempt
    has failed, the reconnect timer pending with the delay read at the
    previous index. *)
Definition retrying (k : nat) (w : World) : Prop :=
  connected (this w) = false
  /\ currentWaitIndex (this w)
     = Nat.min k (List.length FALLBACK_AND_WAIT_MS)
  /\ Forall (fun e => (fst e < nextTimerId (host w))%positive)
       (timeouts (host w))
  /\ match k with
     | O => reconnectTimeout (this w) = None
     | S j =>
         exists t,
           reconnectTimeout (this w) = Some t
           /\ find (fun e => Pos.eqb (fst e) t) (timeouts (host w))
              = Some (t, waitAt (Nat.min j (List.length FALLBACK_AND_WAIT_MS)))
     end.

(** A relation between the state before and after holds for every run of
    a computation, however it completes. *)
Definition stable {A : Type} (R : World -> World -> Prop) (m : M A) : Prop :=
  forall w, R w (stateOf (m w)).


(** What [reconnect] leaves alone: everything but the timer table, the
    timer handle and the retry index. *)
Definition trafficKept (w w' : World) : Prop :=
  listener (this w') = listener (this w)
  /\ requests (this w') = requests (this w)
  /\ connected (this w') = connected (this w)
  /\ seqNo (this w') = seqNo (this w)
  /\ socket (this w') = socket (this w)
  /\ attempts (host w') = attempts (host w)
  /\ wire (host w') = wire (host w)
  /\ calls (host w') = calls (host w)
  /\ intervals (host w') = intervals (host w).

(** The identifier captured by a handle, and the request it issues. *)
Definition handleId (h : UnsubscribeHandle) : string :=
  match h with
  | TelemetryHandle id => id
  | EventHandle id => id
  end.

Definition unsubscribeRequest (h : UnsubscribeHandle) : string :=
  match h with
  | TelemetryHandle _ => tlmUnsubscribeRequest None
  | EventHandle _ => eventUnsubscribeRequest
  end.

(** The number of control messages put on the wire or waiting in the
    queue. *)
Definition issued (w : World) : nat :=
  List.length (wire (host w)) + List.length (requests (this w)).


(** *** Vocabulary of the further statements *)



(** Nothing changed but the log of callback invocations, which grew. *)
Definition onlyCallsAdded (w w' : World) : Prop :=
  this w' = this w
  /\ timeouts (host w') = timeouts (host w)
  /\ intervals (host w') = intervals (host w)
  /\ nextTimerId (host w') = nextTimerId (host w)
  /\ sockets (host w') = sockets (host w)
  /\ attempts (host w') = attempts (host w)
  /\ wire (host w') = wire (host w)
  /\ exists added, calls (host w') = (calls (host w) ++ added)%list.

(** At most one timeout is pending, and it is the one the provider holds
    the handle of. *)
Definition oneTimer (w : World) : Prop :=
  (List.length (timeouts (host w)) <= 1)%nat
  /\ forall e, In e (timeouts (host w)) ->
               reconnectTimeout (this w) = Some (fst e).

Definition oneTimerKept (w w' : World) : Prop := oneTimer w -> oneTimer w'.

(** A timer handle that is set stays as it is, and the timer table with
    it. *)
Definition handleKept (w w' : World) : Prop :=
  forall t,
    reconnectTimeout (this w) = Some t ->
    reconnectTimeout (this w') = Some t
    /\ timeouts (host w') = timeouts (host w).


Arguments reconnect : simpl never.
Arguments sendRequest : simpl never.
Arguments sendOrQueueRequest : simpl never.
Arguments flushQueue : simpl never.
Arguments resubscribeToAll : simpl never.
Arguments idleSubscribe : simpl never.
Arguments connect : simpl never.
Arguments onParameter : simpl never.

(** ** Facts about strings *)







(** ** Facts about dictionaries *)

Lemma assoc_in_keys {V : Type} (k : string) (o : list (string * V)) (v : V) :
  assoc k o = Some v -> In k (map fst o).
Proof.
  induction o as [|[k' v'] o IH]; simpl; [discriminate|].
  destruct (String.eqb_spec k' k) as [->|Hne]; auto.
Qed.

Lemma assoc_none_not_in {V : Type} (k : string) (o : list (string * V)) :
  assoc k o = None <-> ~ In k (map fst o).
Proof.
  induction o as [|[k' v'] o IH]; simpl.
  - split; auto.
  - destruct (String.eqb_spec k' k) as [->|Hne].
    + split; [discriminate|]. intros H. exfalso. apply H. now left.
    + rewrite IH. split.
      * intros H [Heq|Hin]; [now apply Hne | now apply H].
      * intros H Hin. apply H. now right.
Qed.

Lemma obj_has_in_keys {V : Type} (k : string) (o : JsObject V) :
  obj_has k o = true <-> In k (map fst o).
Proof.
  unfold obj_has, obj_get. destruct (assoc k o) eqn:E.
  - split; auto. intros _. eapply assoc_in_keys; eauto.
  - split; [discriminate|]. intros Hin.
    apply assoc_none_not_in in E. contradiction.
Qed.

Lemma obj_replace_keys {V : Type} (k : string) (v : V) (o : JsObject V) :
  map fst (obj_replace k v o) = map fst o.
Proof.
  induction o as [|[k' v'] o IH]; simpl; auto.
  destruct (k' =? k); simpl; congruence.
Qed.

Lemma obj_replace_get {V : Type} (k : string) (v : V) (o : JsObject V) :
  obj_has k o = true -> obj_get k (obj_replace k v o) = Some v.
Proof.
  unfold obj_has, obj_get.
  induction o as [|[k' v'] o IH]; simpl; [discriminate|].
  destruct (k' =? k) eqn:E; simpl; rewrite E; auto.
Qed.

Lemma assoc_app_miss {V : Type} (k : string) (o o' : list (string * V)) :
  assoc k o = None -> assoc k (o ++ o') = assoc k o'.
Proof.
  induction o as [|[k' v'] o IH]; simpl; auto.
  destruct (k' =? k); [discriminate | auto].
Qed.

Lemma obj_get_set {V : Type} (k : string) (v : V) (o : JsObject V) :
  obj_get k (obj_set k v o) = Some v.
Proof.
  unfold obj_set. destruct (obj_has k o) eqn:E.
  - now apply obj_replace_get.
  - unfold obj_has, obj_get in *. destruct (assoc k o) eqn:E'; [discriminate|].
    rewrite assoc_app_miss by assumption. simpl. now rewrite String.eqb_refl.
Qed.

Lemma obj_set_nodup {V : Type} (k : string) (v : V) (o : JsObject V) :
  NoDup (map fst o) -> NoDup (map fst (obj_set k v o)).
Proof.
  intros Hnd. unfold obj_set. destruct (obj_has k o) eqn:E.
  - now rewrite obj_replace_keys.
  - rewrite map_app. simpl.
    assert (Hnot : ~ In k (map fst o)).
    { intros Hin. apply obj_has_in_keys in Hin. congruence. }
    apply NoDup_app; auto.
    + constructor; [intros [] | constructor].
    + intros x Hx [<-|[]]. contradiction.
Qed.

Lemma filter_keys {V : Type} (k : string) (o : JsObject V) :
  map fst (filter (fun kv => negb (fst kv =? k)) o)
  = filter (fun k' => negb (k' =? k)) (map fst o).
Proof.
  induction o as [|[k' v'] o IH]; simpl; auto.
  destruct (k' =? k); simpl; congruence.
Qed.

Lemma obj_delete_own {V : Type} (k : string) (o : JsObject V) :
  k <> "__proto__" ->
  obj_delete k o = filter (fun kv => negb (fst kv =? k)) o.
Proof.
  intros Hk. unfold obj_delete.
  now destruct (String.eqb_spec k "__proto__").
Qed.

Lemma obj_delete_nodup {V : Type} (k : string) (o : JsObject V) :
  NoDup (map fst o) -> NoDup (map fst (obj_delete k o)).
Proof.
  intros Hnd. unfold obj_delete. destruct (k =? "__proto__"); auto.
  rewrite filter_keys. now apply NoDup_filter.
Qed.

Lemma obj_get_delete {V : Type} (k : string) (o : JsObject V) :
  k <> "__proto__" -> obj_get k (obj_delete k o) = None.
Proof.
  intros Hk. rewrite obj_delete_own by assumption.
  unfold obj_get. apply assoc_none_not_in. rewrite filter_keys.
  intros Hin. apply filter_In in Hin. destruct Hin as [_ H].
  now rewrite String.eqb_refl in H.
Qed.


Lemma insertByIndex_perm (k : string) (l : list string) :
  Permutation (insertByIndex k l) (k :: l).
Proof.
  induction l as [|k' l IH]; simpl; auto.
  destruct (indexOf k <=? indexOf k')%N; auto.
  rewrite IH. apply perm_swap.
Qed.

Lemma sortByIndex_perm (l : list string) : Permutation (sortByIndex l) l.
Proof.
  induction l as [|k l IH]; simpl; auto.
  rewrite insertByIndex_perm. now constructor.
Qed.

Lemma partition_perm {A : Type} (f : A -> bool) (l : list A) :
  Permutation (filter f l ++ filter (fun x => negb (f x)) l) l.
Proof.
  induction l as [|x l IH]; simpl; auto.
  destruct (f x); simpl.
  - now constructor.
  - symmetry. apply Permutation_cons_app. now symmetry.
Qed.

(** [Object.keys] lists every own key once. *)
Lemma obj_keys_perm {V : Type} (o : JsObject V) :
  Permutation (obj_keys o) (ownNames o).
Proof.
  unfold obj_keys. rewrite sortByIndex_perm. apply partition_perm.
Qed.

Lemma ownNames_in {V : Type} (o : JsObject V) (k : string) :
  In k (ownNames o) <-> obj_has k o = true /\ k <> "__proto__".
Proof.
  unfold ownNames. rewrite filter_In, obj_has_in_keys.
  destruct (String.eqb_spec k "__proto__") as [->|Hne]; simpl.
  - split; [intros [_ H]; discriminate | intros [_ H]; now contradiction H].
  - split; intros [H _]; split; auto.
Qed.

Lemma obj_keys_in {V : Type} (o : JsObject V) (k : string) :
  In k (obj_keys o) <-> obj_has k o = true /\ k <> "__proto__".
Proof.
  rewrite <- ownNames_in. split; apply Permutation_in.
  - apply obj_keys_perm.
  - symmetry. apply obj_keys_perm.
Qed.


(** ** Reasoning about computations *)

Lemma stable_ret {A : Type} (R : World -> World -> Prop) (a : A) :
  (forall w, R w w) -> stable R (ret a).
Proof. intros Hrefl w. apply Hrefl. Qed.

Lemma stable_throw {A : Type} (R : World -> World -> Prop) (e : Exception) :
  (forall w, R w w) -> stable R (@throw A e).
Proof. intros Hrefl w. apply Hrefl. Qed.

Lemma stable_lift {A : Type} (R : World -> World -> Prop)
  (r : Exception + A) :
  (forall w, R w w) -> stable R (lift r).
Proof. intros Hrefl w. destruct r; apply Hrefl. Qed.

Lemma stable_getThis (R : World -> World -> Prop) :
  (forall w, R w w) -> stable R getThis.
Proof. intros Hrefl w. apply Hrefl. Qed.

Lemma stable_getHost (R : World -> World -> Prop) :
  (forall w, R w w) -> stable R getHost.
Proof. intros Hrefl w. apply Hrefl. Qed.

Lemma stable_bind {A B : Type} (R : World -> World -> Prop)
  (m : M A) (k : A -> M B) :
  (forall w1 w2 w3, R w1 w2 -> R w2 w3 -> R w1 w3) ->
  stable R m -> (forall a, stable R (k a)) -> stable R (bind m k).
Proof.
  intros Htrans Hm Hk w. unfold bind. specialize (Hm w).
  destruct (m w) as [a w'|e w']; simpl in *; auto.
  eapply Htrans; [exact Hm | apply Hk].
Qed.

Lemma stable_try_catch {A : Type} (R : World -> World -> Prop)
  (m : M A) (handler : Exception -> M A) :
  (forall w1 w2 w3, R w1 w2 -> R w2 w3 -> R w1 w3) ->
  stable R m -> (forall e, stable R (handler e)) ->
  stable R (try_catch m handler).
Proof.
  intros Htrans Hm Hh w. unfold try_catch. specialize (Hm w).
  destruct (m w) as [a w'|e w']; simpl in *; auto.
  eapply Htrans; [exact Hm | apply Hh].
Qed.

Lemma stable_forEach {A : Type} (R : World -> World -> Prop)
  (f : A -> M unit) (l : list A) :
  (forall w, R w w) ->
  (forall w1 w2 w3, R w1 w2 -> R w2 w3 -> R w1 w3) ->
  (forall x, stable R (f x)) -> stable R (forEach f l).
Proof.
  intros Hrefl Htrans Hf. induction l as [|x l IH]; simpl.
  - now apply stable_ret.
  - apply stable_bind; auto.
Qed.

Lemma stable_modifyThis (R : World -> World -> Prop)
  (f : RealtimeTelemetryProvider -> RealtimeTelemetryProvider) :
  (forall w, R w {| this := f (this w); host := host w |}) ->
  stable R (modifyThis f).
Proof. intros H w. apply H. Qed.

Lemma stable_modifyHost (R : World -> World -> Prop) (f : Host -> Host) :
  (forall w, R w {| this := this w; host := f (host w) |}) ->
  stable R (modifyHost f).
Proof. intros H w. apply H. Qed.

(** Decomposes a [stable] goal along the structure of the computation,
    given proofs that the relation is reflexive and transitive, and a
    tactic for the state updates. *)
Ltac stable_walk Hrefl Htrans leaf :=
  repeat
    (lazymatch goal with
     | |- stable _ (bind _ _) =>
         apply stable_bind; [exact Htrans | | intros ? ]
     | |- stable _ (try_catch _ _) =>
         apply stable_try_catch; [exact Htrans | | intros ? ]
     | |- stable _ (forEach _ _) =>
         apply stable_forEach; [exact Hrefl | exact Htrans | intros ? ]
     | |- stable _ (ret _) => apply stable_ret; exact Hrefl
     | |- stable _ (throw _) => apply stable_throw; exact Hrefl
     | |- stable _ (lift _) => apply stable_lift; exact Hrefl
     | |- stable _ getThis => apply stable_getThis; exact Hrefl
     | |- stable _ getHost => apply stable_getHost; exact Hrefl
     | |- stable _ (modifyThis _) =>
         apply stable_modifyThis; intros ?; leaf
     | |- stable _ (modifyHost _) =>
         apply stable_modifyHost; intros ?; leaf
     | |- stable _ (if ?b then _ else _) => destruct b
     | |- stable _ (match ?x with _ => _ end) => destruct x
     end).





















(** ** What the methods do *)

(** [reconnect] never throws, touches neither the traffic nor the
    registry, and leaves a timer handle behind. *)
Lemma reconnect_effect (w : World) :
  exists w',
    reconnect w = Normal tt w'
    /\ trafficKept w w'
    /\ reconnectTimeout (this w') <> None.
Proof.
  unfold reconnect, bind, getThis, setTimeout, bind, getHost, modifyHost,
    modifyThis, ret.
  destruct (reconnectTimeout (this w)) eqn:E.
  - exists w. split; [reflexivity|]. split; [repeat split|]. congruence.
  - destruct (currentWaitIndex (this w) <? List.length FALLBACK_AND_WAIT_MS)%nat;
      eexists; (split; [reflexivity|]); (split; [repeat split|]);
      cbn; discriminate.
Qed.

(** What [reconnect] does to the timers: with no handle held it arms one
    timeout, with the delay read at the retry index, keeps its handle and
    advances the index while it is below the length of the schedule; with
    a handle held it does nothing at all. *)
Lemma reconnect_timers (w : World) :
  exists w',
    reconnect w = Normal tt w'
    /\ trafficKept w w'
    /\ match reconnectTimeout (this w) with
       | None =>
           reconnectTimeout (this w') = Some (nextTimerId (host w))
           /\ timeouts (host w')
              = (timeouts (host w)
                 ++ [(nextTimerId (host w),
                      waitAt (currentWaitIndex (this w)))])%list
           /\ currentWaitIndex (this w')
              = (if (currentWaitIndex (this w)
                     <? List.length FALLBACK_AND_WAIT_MS)%nat
                 then S (currentWaitIndex (this w))
                 else currentWaitIndex (this w))
       | Some t => w' = w
       end.
Proof.
  unfold reconnect, bind, getThis, setTimeout, bind, getHost, modifyHost,
    modifyThis, ret.
  destruct (reconnectTimeout (this w)) eqn:E.
  - exists w. split; [reflexivity|]. split; [repeat split|reflexivity].
  - destruct (currentWaitIndex (this w) <? List.length FALLBACK_AND_WAIT_MS)%nat;
      eexists; (split; [reflexivity|]); (split; [repeat split|]);
      cbn; repeat split.
Qed.

(** [sendRequest] step by step: the counter is advanced before the socket
    is touched. *)
Lemma sendRequest_eq (request : string) (w : World) :
  sendRequest request w =
  let w1 := {| this := set_seqNo (seqNo (this w) + 1) (this w);
               host := host w |} in
  match socket (this w) with
  | None => Throw TypeError w1
  | Some _ =>
      if sendFails (attempts (host w))
      then Throw SendError
             {| this := this w1; host := recordAttempt None (host w) |}
      else Normal tt
             {| this := this w1;
                host := recordAttempt
                          (Some (frame (seqNo (this w) + 1) request))
                          (host w) |}
  end.
Proof.
  unfold sendRequest, socketSend, bind, modifyThis, getThis, getHost,
    modifyHost, throw.
  cbn [this host socket set_seqNo seqNo attempts].
  destruct (socket (this w)); [|reflexivity]. simpl.
  destruct (sendFails (attempts (host w))); reflexivity.
Qed.

(** [sendOrQueueRequest] never throws, and either puts the request on the
    wire or appends it to the queue. *)
Lemma sendOrQueueRequest_effect (request : string) (w : World) :
  exists o w',
    sendOrQueueRequest request w = Normal o w'
    /\ listener (this w') = listener (this w)
    /\ socket (this w') = socket (this w)
    /\ calls (host w') = calls (host w)
    /\ ((connected (this w) = true
         /\ socket (this w) <> None
         /\ sendFails (attempts (host w)) = false
         /\ o = ReturnedTrue
         /\ connected (this w') = true
         /\ seqNo (this w') = (seqNo (this w) + 1)%Z
         /\ attempts (host w') = S (attempts (host w))
         /\ wire (host w')
            = (wire (host w) ++ [frame (seqNo (this w) + 1) request])%list
         /\ requests (this w') = requests (this w))
        \/ (o = ReturnedUndefined
            /\ connected (this w') = false
            /\ wire (host w') = wire (host w)
            /\ requests (this w') = (requests (this w) ++ [request])%list)).
Proof.
  assert (Hcatch : forall w1 : World,
    listener (this w1) = listener (this w) ->
    socket (this w1) = socket (this w) ->
    calls (host w1) = calls (host w) ->
    wire (host w1) = wire (host w) ->
    requests (this w1) = requests (this w) ->
    exists w',
      (modifyThis (set_connected false) ;; pushRequest request ;;
       reconnect ;; ret ReturnedUndefined) w1 = Normal ReturnedUndefined w'
      /\ listener (this w') = listener (this w)
      /\ socket (this w') = socket (this w)
      /\ calls (host w') = calls (host w)
      /\ connected (this w') = false
      /\ wire (host w') = wire (host w)
      /\ requests (this w') = (requests (this w) ++ [request])%list).
  { intros w1 Hl Hs Hca Hwi Hq.
    unfold bind, modifyThis, pushRequest, ret. cbn.
    match goal with
    | |- context [reconnect ?w2] =>
        destruct (reconnect_effect w2) as (w' & Hr & Hk & _); rewrite Hr
    end.
    destruct Hk as (Hl' & Hq' & Hcn' & _ & Hso' & _ & Hwi' & Hca' & _).
    cbn in *. exists w'. split; [reflexivity|].
    repeat split; congruence. }
  unfold sendOrQueueRequest. unfold bind at 1. unfold getThis.
  destruct (connected (this w)) eqn:Hc.
  - unfold try_catch. unfold bind at 1. rewrite sendRequest_eq. cbn zeta.
    destruct (socket (this w)) as [s|] eqn:Hs.
    + destruct (sendFails (attempts (host w))) eqn:Hf.
      * match goal with
        | |- context [@bind _ _ _ _ ?w1] =>
            destruct (Hcatch w1) as (w' & Hr & H); try (cbn; solve [auto])
        end.
        exists ReturnedUndefined, w'. split; [exact Hr|].
        destruct H as (? & ? & ? & ? & ? & ?). cbn in *.
        repeat split; try congruence. right. repeat split; assumption.
      * eexists _, _. split; [reflexivity|]. cbn.
        repeat split; try assumption.
        left. repeat split; auto. discriminate.
    + match goal with
      | |- context [@bind _ _ _ _ ?w1] =>
          destruct (Hcatch w1) as (w' & Hr & H); try (cbn; solve [auto])
      end.
      exists ReturnedUndefined, w'. split; [exact Hr|].
      destruct H as (? & ? & ? & ? & ? & ?). cbn in *.
      repeat split; try congruence. right. repeat split; assumption.
  - unfold bind, pushRequest, modifyThis, ret. cbn.
    eexists _, _. split; [reflexivity|]. cbn.
    repeat split. right. repeat split. exact Hc.
Qed.

(** The two cases in which [sendOrQueueRequest] can be computed at once:
    connected with a send that goes through, and not connected. *)
Lemma sendOrQueueRequest_sent (request : string) (w : World) :
  connected (this w) = true ->
  socket (this w) <> None ->
  sendFails (attempts (host w)) = false ->
  sendOrQueueRequest request w
  = Normal ReturnedTrue
      {| this := set_seqNo (seqNo (this w) + 1) (this w);
         host := recordAttempt (Some (frame (seqNo (this w) + 1) request))
                   (host w) |}.
Proof.
  intros Hc Hs Hf. unfold sendOrQueueRequest. unfold bind at 1.
  unfold getThis. rewrite Hc. unfold try_catch. unfold bind at 1.
  rewrite sendRequest_eq. cbn zeta.
  destruct (socket (this w)); [|congruence]. now rewrite Hf.
Qed.


(** The request goes on the wire exactly when the provider is connected,
    has a socket and the send goes through; in every other case it is
    appended to the queue and the wire is as before. *)
Lemma sendOrQueueRequest_cases (request : string) (w : World) :
  exists o w',
    sendOrQueueRequest request w = Normal o w'
    /\ listener (this w') = listener (this w)
    /\ (connected (this w) = true ->
        socket (this w) <> None ->
        sendFails (attempts (host w)) = false ->
        wire (host w')
        = (wire (host w) ++ spec_payloads (seqNo (this w)) [request])%list
        /\ requests (this w') = requests (this w))
    /\ (connected (this w) = false \/ socket (this w) = None
        \/ sendFails (attempts (host w)) = true ->
        wire (host w') = wire (host w)
        /\ requests (this w') = (requests (this w) ++ [request])%list).
Proof.
  destruct (sendOrQueueRequest_effect request w)
    as (o & w' & Hs & Hl & _ & _ & Hd).
  exists o, w'. split; [exact Hs|]. split; [exact Hl|]. split.
  - intros Hc Hso Hf.
    rewrite (sendOrQueueRequest_sent request w Hc Hso Hf) in Hs.
    injection Hs as _ <-. cbn. split; reflexivity.
  - intros Hcase.
    destruct Hd as [(Hc & Hso & Hf & _)|(_ & _ & Hw & Hq)]; [|now split].
    destruct Hcase as [H|[H|H]]; congruence.
Qed.

(** ** Registration *)

(** C1 (as amended). A registration made while the provider is not
    connected, under an identifier other than [__proto__] and in a
    registry that holds no callback under [__proto__], stores the
    callback in the registry and returns without sending or queueing
    anything: the Outbound Request Queue and the whole host side (the
    wire included) are unchanged.  The new entry is among the keys the
    resubscription sweep of the next open walks. *)
Theorem subscribe_while_disconnected
  (domainObject : DomainObject) (callback : Callback) (w : World) :
  connected (this w) = false ->
  key (identifier domainObject) <> "__proto__" ->
  plainRegistry w ->
  exists h w',
    subscribe domainObject callback w = Normal h w'
    /\ requests (this w') = requests (this w)
    /\ host w' = host w
    /\ connected (this w') = false
    /\ obj_get (key (identifier domainObject)) (listener (this w'))
       = Some callback
    /\ In (key (identifier domainObject)) (obj_keys (listener (this w'))).
Proof.
  intros Hc Hkey _.
  unfold subscribe, subscribeToEvent, subscribeToTelemetry, bind,
    modifyThis, getThis, ret.
  destruct (key (identifier domainObject) =? EVENTS_OBJECT_TYPE);
    cbn; rewrite Hc; eexists _, _; (split; [reflexivity|]); cbn;
    repeat split; auto using obj_get_set;
    apply obj_keys_in; (split; [|exact Hkey]);
    unfold obj_has; now rewrite obj_get_set.
Qed.

(** C5 (as amended). Invoking the handle returned by [subscribe] never
    raises an error, in any state and any number of times.  Every
    invocation issues one unsubscribe control message (the parameter or
    the events unsubscribe verb), put on the wire when the provider is
    connected and the send goes through and appended to the Outbound
    Request Queue otherwise, and, for an identifier other than
    [__proto__], leaves no entry under the handle's identifier; a second
    invocation therefore issues a second unsubscribe message. *)
Theorem unsubscribe_effect (h : UnsubscribeHandle) (w : World) :
  exists w1 w2,
    unsubscribe h w = Normal tt w1
    /\ unsubscribe h w1 = Normal tt w2
    /\ (connected (this w) = true ->
        socket (this w) <> None ->
        sendFails (attempts (host w)) = false ->
        wire (host w1)
        = (wire (host w)
           ++ spec_payloads (seqNo (this w)) [unsubscribeRequest h])%list
        /\ requests (this w1) = requests (this w))
    /\ (connected (this w) = false \/ socket (this w) = None
        \/ sendFails (attempts (host w)) = true ->
        wire (host w1) = wire (host w)
        /\ requests (this w1)
           = (requests (this w) ++ [unsubscribeRequest h])%list)
    /\ (handleId h <> "__proto__" ->
        obj_get (handleId h) (listener (this w1)) = None)
    /\ issued w1 = S (issued w)
    /\ issued w2 = S (S (issued w))
    /\ String.prefix
         match h with
         | TelemetryHandle _ =>
             "{" ++ dq ++ "parameter" ++ dq ++ ": " ++ dq ++ "unsubscribe"
             ++ dq
         | EventHandle _ => "{'events': 'unsubscribe'"
         end
         (unsubscribeRequest h) = true.
Proof.
  assert (Hone : forall w0 : World,
    exists w',
      unsubscribe h w0 = Normal tt w'
      /\ (connected (this w0) = true ->
          socket (this w0) <> None ->
          sendFails (attempts (host w0)) = false ->
          wire (host w')
          = (wire (host w0)
             ++ spec_payloads (seqNo (this w0)) [unsubscribeRequest h])%list
          /\ requests (this w') = requests (this w0))
      /\ (connected (this w0) = false \/ socket (this w0) = None
          \/ sendFails (attempts (host w0)) = true ->
          wire (host w') = wire (host w0)
          /\ requests (this w')
             = (requests (this w0) ++ [unsubscribeRequest h])%list)
      /\ (handleId h <> "__proto__" ->
          obj_get (handleId h) (listener (this w')) = None)
      /\ issued w' = S (issued w0)).
  { intros w0.
    destruct (sendOrQueueRequest_cases (unsubscribeRequest h) w0)
      as (o & w' & Hs & Hl & Hsent & Hqueued).
    exists {| this := set_listener (obj_delete (handleId h) (listener (this w')))
                        (this w');
              host := host w' |}.
    split; [|split; [|split; [|split]]].
    - destruct h; unfold unsubscribe, tlmUnsubscribe, eventUnsubscribe, bind;
        cbn in Hs |- *; rewrite Hs; reflexivity.
    - exact Hsent.
    - exact Hqueued.
    - intros Hid. cbn. now apply obj_get_delete.
    - unfold issued. cbn [this host wire requests set_listener].
      destruct (connected (this w0)) eqn:Hc.
      + destruct (socket (this w0)) as [so|] eqn:Hso.
        * destruct (sendFails (attempts (host w0))) eqn:Hf.
          -- destruct Hqueued as [Hw Hq]; [auto|]. rewrite Hw, Hq.
             rewrite length_app. simpl. lia.
          -- destruct Hsent as [Hw Hq]; [reflexivity|discriminate|reflexivity|].
             rewrite Hw, Hq. rewrite length_app. simpl. lia.
        * destruct Hqueued as [Hw Hq]; [auto|]. rewrite Hw, Hq.
          rewrite length_app. simpl. lia.
      + destruct Hqueued as [Hw Hq]; [auto|]. rewrite Hw, Hq.
        rewrite length_app. simpl. lia. }
  destruct (Hone w) as (w1 & H1 & Hs1 & Hq1 & Hg1 & Hi1).
  destruct (Hone w1) as (w2 & H2 & _ & _ & _ & Hi2).
  exists w1, w2.
  split; [exact H1|]. split; [exact H2|]. split; [exact Hs1|].
  split; [exact Hq1|]. split; [exact Hg1|]. split; [exact Hi1|].
  split; [now rewrite Hi2, Hi1|].
  destruct h; reflexivity.
Qed.

(** ** Draining the queue *)

Lemma keptFrom_none (k : nat) (rs : list string) :
  anyFails k (List.length rs) = false -> keptFrom k rs = [].
Proof.
  revert k. induction rs as [|r rs IH]; intros k; simpl; auto.
  destruct (sendFails k); simpl; [discriminate | apply IH].
Qed.

(** The [filter] of [flushQueue] calls [sendRequest] on every request, in
    order, whatever happened to the earlier ones. *)
Lemma flushFilter_effect (rs : list string) :
  forall (sr : bool) (w : World),
    socket (this w) <> None ->
    exists w',
      flushFilter rs sr w
      = Normal (keptFrom (attempts (host w)) rs,
                sr || anyFails (attempts (host w)) (List.length rs)) w'
      /\ wire (host w')
         = (wire (host w)
            ++ sentFrom (attempts (host w)) (seqNo (this w)) rs)%list
      /\ attempts (host w') = (attempts (host w) + List.length rs)%nat
      /\ seqNo (this w') = (seqNo (this w) + Z.of_nat (List.length rs))%Z
      /\ connected (this w')
         = (if anyFails (attempts (host w)) (List.length rs) then false
            else connected (this w))
      /\ socket (this w') = socket (this w)
      /\ listener (this w') = listener (this w)
      /\ reconnectTimeout (this w') = reconnectTimeout (this w)
      /\ currentWaitIndex (this w') = currentWaitIndex (this w)
      /\ timeouts (host w') = timeouts (host w)
      /\ intervals (host w') = intervals (host w)
      /\ calls (host w') = calls (host w)
      /\ nextTimerId (host w') = nextTimerId (host w).
Proof.
  induction rs as [|r rs IH]; intros sr w Hsock.
  - exists w. simpl. unfold ret. rewrite orb_false_r, app_nil_r, Z.add_0_r.
    rewrite Nat.add_0_r. repeat split; reflexivity.
  - simpl flushFilter. unfold bind at 1. unfold try_catch.
    unfold bind at 1. rewrite sendRequest_eq. cbn zeta.
    destruct (socket (this w)) as [s|] eqn:Hs; [|congruence].
    simpl List.length. simpl keptFrom. simpl sentFrom. simpl anyFails.
    destruct (sendFails (attempts (host w))) eqn:Hf.
    + unfold bind at 1. unfold modifyThis at 1. unfold ret at 1.
      unfold bind at 1.
      match goal with
      | |- context [flushFilter rs ?b ?w1] =>
          destruct (IH b w1) as (w' & He & Hw & Ha & Hq & Hc & Hso & Hl
                                 & Hrt & Hci & Hto & Hin & Hca & Hnt);
          [cbn; congruence|]
      end.
      rewrite He. cbn in *. exists w'. unfold ret.
      rewrite orb_true_r. split; [reflexivity|].
      rewrite Hw, Ha, Hq, Hc, Hso, Hl, Hrt, Hci, Hto, Hin, Hca, Hnt.
      repeat split; try lia; try assumption.
      now destruct (anyFails _ _).
    + unfold ret at 1. unfold bind at 1.
      match goal with
      | |- context [flushFilter rs ?b ?w1] =>
          destruct (IH b w1) as (w' & He & Hw & Ha & Hq & Hc & Hso & Hl
                                 & Hrt & Hci & Hto & Hin & Hca & Hnt);
          [cbn; congruence|]
      end.
      rewrite He. cbn in *. exists w'. unfold ret.
      rewrite orb_false_r. split; [reflexivity|].
      rewrite Hw, Ha, Hq, Hc, Hso, Hl, Hrt, Hci, Hto, Hin, Hca, Hnt.
      rewrite <- app_assoc. repeat split; try lia; try assumption.
Qed.

(** C2 (as amended). Draining the Outbound Request Queue attempts to send
    every queued message, in original enqueue order, whether or not an
    earlier send failed.  Exactly the messages whose send failed stay
    queued, in their order, and the messages sent are removed.  If at
    least one send failed the state becomes disconnected and [reconnect]
    is called: when no timer handle is held it arms one reconnect timer
    with the delay read at the retry index and advances the index, and
    when a handle is held it changes nothing.  Otherwise the queue ends
    empty and the connection state, the timer handle and the pending
    timers are as before. *)
Theorem flushQueue_effect (w : World) :
  socket (this w) <> None ->
  exists w',
    flushQueue w = Normal tt w'
    /\ requests (this w') = keptFrom (attempts (host w)) (requests (this w))
    /\ wire (host w')
       = (wire (host w)
          ++ sentFrom (attempts (host w)) (seqNo (this w))
               (requests (this w)))%list
    /\ attempts (host w')
       = (attempts (host w) + List.length (requests (this w)))%nat
    /\ (if anyFails (attempts (host w)) (List.length (requests (this w)))
        then connected (this w') = false
             /\ match reconnectTimeout (this w) with
                | None =>
                    reconnectTimeout (this w') = Some (nextTimerId (host w))
                    /\ timeouts (host w')
                       = (timeouts (host w)
                          ++ [(nextTimerId (host w),
                               waitAt (currentWaitIndex (this w)))])%list
                    /\ currentWaitIndex (this w')
                       = (if (currentWaitIndex (this w)
                              <? List.length FALLBACK_AND_WAIT_MS)%nat
                          then S (currentWaitIndex (this w))
                          else currentWaitIndex (this w))
                | Some t =>
                    reconnectTimeout (this w') = Some t
                    /\ timeouts (host w') = timeouts (host w)
                    /\ currentWaitIndex (this w') = currentWaitIndex (this w)
                end
        else connected (this w') = connected (this w)
             /\ reconnectTimeout (this w') = reconnectTimeout (this w)
             /\ timeouts (host w') = timeouts (host w)
             /\ requests (this w') = []).
Proof.
  intros Hsock. unfold flushQueue. unfold bind at 1. unfold getThis.
  unfold bind at 1.
  destruct (flushFilter_effect (requests (this w)) false w Hsock)
    as (w1 & He & Hw & Ha & Hq & Hc & Hso & Hl & Hrt & Hci & Hto & Hin
        & Hca & Hnt).
  rewrite He. simpl orb. unfold bind at 1. unfold modifyThis at 1.
  cbn [fst snd].
  destruct (anyFails (attempts (host w)) (List.length (requests (this w))))
    eqn:Hany.
  - match goal with
    | |- context [reconnect ?w2] =>
        destruct (reconnect_timers w2) as (w' & Hr & Hk & Htm)
      end.
    destruct Hk as (_ & Hq' & Hcn' & _ & _ & Hat' & Hwi' & _).
    cbn in *. exists w'. split; [exact Hr|].
    rewrite Hq', Hwi', Hat', Hcn'.
    split; [reflexivity|]. split; [exact Hw|]. split; [exact Ha|].
    split; [exact Hc|].
    rewrite Hrt in Htm.
    destruct (reconnectTimeout (this w)) as [t|] eqn:Eh.
    + subst w'. cbn. auto.
    + rewrite Hnt, Hto, Hci in Htm. exact Htm.
  - unfold ret. eexists. split; [reflexivity|]. cbn.
    repeat split; auto. now apply keptFrom_none.
Qed.

(** ** The resubscription sweep *)

(** One iteration of the sweep is one call of [sendOrQueueRequest]. *)
Lemma sweep_body_eq (id : string) (w : World) :
  (if id =? EVENTS_OBJECT_TYPE then eventSubscribe
   else tlmSubscribe (idToQualifiedName id)) w
  = (sendOrQueueRequest (resubscribeRequest id) ;; ret tt) w.
Proof.
  unfold resubscribeRequest, eventSubscribe, tlmSubscribe.
  now destruct (id =? EVENTS_OBJECT_TYPE).
Qed.



(** When every send of the sweep goes through, all requests are on the
    wire. *)
Lemma sweep_sent (ks : list string) :
  forall w : World,
    connected (this w) = true ->
    socket (this w) <> None ->
    (forall i, (i < List.length ks)%nat ->
               sendFails (attempts (host w) + i) = false) ->
    exists w',
      forEach sweepBody ks w = Normal tt w'
      /\ wire (host w')
         = (wire (host w)
            ++ frames (seqNo (this w)) (map resubscribeRequest ks))%list
      /\ requests (this w') = requests (this w)
      /\ listener (this w') = listener (this w)
      /\ connected (this w') = true
      /\ socket (this w') = socket (this w)
      /\ seqNo (this w') = (seqNo (this w) + Z.of_nat (List.length ks))%Z
      /\ attempts (host w') = (attempts (host w) + List.length ks)%nat
      /\ currentWaitIndex (this w') = currentWaitIndex (this w).
Proof.
  induction ks as [|k ks IH]; intros w Hc Hs Hf; simpl.
  - exists w. unfold ret. rewrite app_nil_r, Z.add_0_r, Nat.add_0_r. auto 10.
  - unfold bind at 1. unfold sweepBody at 1. rewrite sweep_body_eq.
    unfold bind at 1. rewrite sendOrQueueRequest_sent; auto.
    2:{ specialize (Hf 0%nat). rewrite Nat.add_0_r in Hf. apply Hf.
        simpl. lia. }
    unfold ret at 1.
    match goal with
    | |- context [forEach sweepBody ks ?w1] =>
        destruct (IH w1)
          as (w' & He & Hw & Hq & Hl & Hc' & Hs' & Hsq & Ha & Hi)
    end.
    + exact Hc.
    + exact Hs.
    + intros i Hi. cbn. rewrite <- Nat.add_succ_r.
      apply Hf. simpl. lia.
    + exists w'. cbn in *. rewrite He, Hw, Hq, Hl, Hc', Hs', Hsq, Ha, Hi.
      rewrite <- app_assoc. simpl. repeat split; auto; lia.
Qed.

(** ** The registry stays well formed *)

Lemma registryKept_refl (w : World) : registryKept w w.
Proof. intros H. exact H. Qed.

Lemma registryKept_trans (w1 w2 w3 : World) :
  registryKept w1 w2 -> registryKept w2 w3 -> registryKept w1 w3.
Proof. unfold registryKept. auto. Qed.

Ltac registry_leaf :=
  unfold registryKept, registry_ok; cbn;
  auto using obj_set_nodup, obj_delete_nodup.

Ltac registry_walk :=
  stable_walk registryKept_refl registryKept_trans registry_leaf.

Lemma reconnect_keeps_registry : stable registryKept reconnect.
Proof. unfold reconnect, setTimeout. registry_walk. Qed.

Lemma sendOrQueueRequest_keeps_registry (request : string) :
  stable registryKept (sendOrQueueRequest request).
Proof.
  pose proof reconnect_keeps_registry.
  unfold sendOrQueueRequest, pushRequest, sendRequest, socketSend.
  registry_walk; auto.
Qed.

Lemma flushFilter_keeps_registry (rs : list string) (sr : bool) :
  stable registryKept (flushFilter rs sr).
Proof.
  revert sr. induction rs as [|r rs IH]; intros sr; simpl.
  - registry_walk.
  - unfold sendRequest, socketSend. registry_walk; auto.
Qed.

Lemma connect_keeps_registry : stable registryKept connect.
Proof. unfold connect, newWebSocket. registry_walk. Qed.

(** Every event handler keeps the registry free of duplicate keys. *)
Lemma step_keeps_registry (e : Event) : stable registryKept (step e).
Proof.
  pose proof reconnect_keeps_registry.
  pose proof sendOrQueueRequest_keeps_registry.
  pose proof flushFilter_keeps_registry.
  pose proof connect_keeps_registry.
  destruct e; unfold step, keepAliveFires, subscribe, subscribeToEvent,
    subscribeToTelemetry,
    unsubscribe, onopen, flushQueue, resubscribeToAll, idleSubscribe,
    onmessage, jsonForEach, onParameter, inheritedCall, invoke, onerror,
    onclose,
    reconnectTimerFires, clearTimeout, setInterval,
    eventSubscribe,
    tlmSubscribe, eventUnsubscribe, tlmUnsubscribe, idleTlmSubscribe;
    registry_walk; auto.
Qed.

Lemma constructor_registry_ok (u i : string) : registry_ok (constructor u i).
Proof. unfold registry_ok. simpl. constructor. Qed.

(** Every state reached from the constructor has a well-formed registry. *)
Lemma run_registry_ok (es : list Event) (w : World) :
  registry_ok w -> registry_ok (run es w).
Proof.
  revert w. induction es as [|e es IH]; intros w Hok; simpl; auto.
  apply IH. now apply step_keeps_registry.
Qed.

(** ** Inbound frames *)




(** A PARAMETER frame is the [forEach] over its updates. *)
Lemma onmessage_parameter (data : list Json) (d : Json) (ps : list Json)
  (w : World) :
  (4 <= List.length data)%nat ->
  prop (nth 3 data JUndefined) "dt" = inr (JStr "PARAMETER") ->
  prop (nth 3 data JUndefined) "data" = inr d ->
  prop d "parameter" = inr (JArr ps) ->
  onmessage data w = (forEach onParameter ps ;; ret tt) w.
Proof.
  intros Hlen Hdt Hd Hps. unfold onmessage.
  apply Nat.ltb_ge in Hlen. rewrite Hlen.
  unfold bind at 1. rewrite Hdt. unfold lift at 1, ret at 1.
  cbn [strict_eq_string String.eqb Ascii.eqb Bool.eqb andb].
  rewrite Hd. unfold bind, lift, ret, throw. cbn beta iota.
  rewrite Hps. reflexivity.
Qed.



(** ** The keepalive timer *)






(** ** The reconnect schedule *)

Lemma find_fresh (t : positive) (d : Delay) (l : list (positive * Delay)) :
  Forall (fun e => (fst e < t)%positive) l ->
  find (fun e => Pos.eqb (fst e) t) (l ++ [(t, d)]) = Some (t, d).
Proof.
  induction 1 as [|e l He _ IH]; simpl.
  - now rewrite Pos.eqb_refl.
  - replace (Pos.eqb (fst e) t) with false; [exact IH|].
    symmetry. apply Pos.eqb_neq. lia.
Qed.

Lemma find_existsb {A : Type} (f : A -> bool) (l : list A) (x : A) :
  find f l = Some x -> existsb f l = true.
Proof.
  induction l as [|y l IH]; simpl; [discriminate|].
  destruct (f y); auto.
Qed.

Lemma Forall_older_succ (t : positive) (l : list (positive * Delay)) :
  Forall (fun e => (fst e < t)%positive) l ->
  Forall (fun e => (fst e < Pos.succ t)%positive) l.
Proof. apply Forall_impl. intros e. lia. Qed.

Lemma Forall_filter_keep {A : Type} (P : A -> Prop) (f : A -> bool)
  (l : list A) :
  Forall P l -> Forall P (filter f l).
Proof.
  induction 1 as [|x l Hx _ IH]; simpl; auto.
  destruct (f x); auto.
Qed.

(** The first [reconnect] after the timer handle was deleted: the delay is
    read at the current index, and the index advances unless it has
    reached the length of the schedule. *)
Lemma reconnect_schedules (w : World) :
  reconnectTimeout (this w) = None ->
  Forall (fun e => (fst e < nextTimerId (host w))%positive)
    (timeouts (host w)) ->
  exists w',
    reconnect w = Normal tt w'
    /\ connected (this w') = connected (this w)
    /\ currentWaitIndex (this w')
       = (if (currentWaitIndex (this w)
              <? List.length FALLBACK_AND_WAIT_MS)%nat
          then S (currentWaitIndex (this w))
          else currentWaitIndex (this w))
    /\ Forall (fun e => (fst e < nextTimerId (host w'))%positive)
         (timeouts (host w'))
    /\ reconnectTimeout (this w') = Some (nextTimerId (host w))
    /\ find (fun e => Pos.eqb (fst e) (nextTimerId (host w)))
         (timeouts (host w'))
       = Some (nextTimerId (host w), waitAt (currentWaitIndex (this w))).
Proof.
  intros Hnone Hold.
  assert (Hnew : Forall (fun e => (fst e < Pos.succ (nextTimerId (host w)))%positive)
                   (timeouts (host w)
                    ++ [(nextTimerId (host w),
                         waitAt (currentWaitIndex (this w)))])%list).
  { apply Forall_app. split; [now apply Forall_older_succ|].
    constructor; [simpl; lia | constructor]. }
  unfold reconnect, bind, getThis, setTimeout, bind, getHost, modifyHost,
    modifyThis, ret.
  rewrite Hnone.
  destruct (currentWaitIndex (this w)
            <? List.length FALLBACK_AND_WAIT_MS)%nat;
    eexists; (split; [reflexivity|]); cbn;
    repeat split; auto using find_fresh.
Qed.

(** A pending reconnect timer fires while disconnected: a socket is
    opened and the timer handle is deleted. *)
Lemma reconnectTimerFires_pending (t : positive) (d : Delay) (w : World) :
  find (fun e => Pos.eqb (fst e) t) (timeouts (host w)) = Some (t, d) ->
  connected (this w) = false ->
  Forall (fun e => (fst e < nextTimerId (host w))%positive)
    (timeouts (host w)) ->
  exists w1,
    reconnectTimerFires t w = Normal tt w1
    /\ reconnectTimeout (this w1) = None
    /\ currentWaitIndex (this w1) = currentWaitIndex (this w)
    /\ Forall (fun e => (fst e < nextTimerId (host w1))%positive)
         (timeouts (host w1)).
Proof.
  intros Hfind Hc Hold.
  unfold reconnectTimerFires. unfold bind at 1. unfold getHost.
  rewrite (find_existsb _ _ _ Hfind).
  unfold bind at 1. unfold modifyHost at 1.
  unfold bind at 1. unfold connect. unfold bind at 1. unfold getThis.
  cbn [this host connected]. rewrite Hc.
  unfold bind, modifyThis, newWebSocket, bind, getHost, modifyHost, ret.
  eexists. split; [reflexivity|]. cbn.
  repeat split. now apply Forall_filter_keep.
Qed.

Lemma failedAttempt_retrying (k : nat) (w : World) :
  retrying k w ->
  exists w', failedAttempt w = Normal tt w' /\ retrying (S k) w'.
Proof.
  intros (Hc & Hidx & Hold & Htimer).
  assert (Hgo : forall w1 : World,
    reconnectTimeout (this w1) = None ->
    currentWaitIndex (this w1) = currentWaitIndex (this w) ->
    Forall (fun e => (fst e < nextTimerId (host w1))%positive)
      (timeouts (host w1)) ->
    exists w', (onerror ;; onclose) w1 = Normal tt w' /\ retrying (S k) w').
  { intros w1 Hnone Hi Ho.
    unfold onerror, onclose. unfold bind at 1. unfold bind at 1.
    unfold modifyThis at 1.
    match goal with
    | |- context [reconnect ?w2] =>
        destruct (reconnect_schedules w2) as (w' & Hr & Hc' & Hi' & Ho' & Ht' & Hf');
        [exact Hnone | exact Ho |]
    end.
    rewrite Hr. unfold bind at 1. unfold modifyThis at 1.
    unfold reconnect, bind, getThis. cbn [this reconnectTimeout set_connected].
    rewrite Ht'. unfold ret. eexists. split; [reflexivity|].
    unfold retrying.
    cbn [this host currentWaitIndex set_connected connected
         reconnectTimeout timeouts nextTimerId] in *.
    split; [reflexivity|]. split; [|split; [exact Ho'|]].
    - rewrite Hi', Hi, Hidx.
      change (List.length FALLBACK_AND_WAIT_MS) with 6%nat.
      destruct (Nat.ltb_spec (Nat.min k 6) 6); lia.
    - eexists. split; [exact Ht'|]. rewrite Hf', Hi, Hidx. reflexivity. }
  unfold failedAttempt. unfold bind at 1. unfold getThis. unfold bind at 1.
  destruct k as [|j].
  - rewrite Htimer. unfold ret at 1. apply Hgo; auto.
  - destruct Htimer as (t & Ht & Hfind). rewrite Ht.
    destruct (reconnectTimerFires_pending t _ w Hfind Hc Hold)
      as (w1 & He & Hnone & Hi & Ho).
    rewrite He. apply Hgo; auto.
Qed.

Lemma consecutiveFailures_retrying (n : nat) (w : World) :
  retrying 0 w ->
  exists w', consecutiveFailures n w = Normal tt w' /\ retrying n w'.
Proof.
  intros H0. induction n as [|n (w1 & He & Hr)]; simpl.
  - exists w. auto.
  - unfold bind. rewrite He. now apply failedAttempt_retrying.
Qed.

Lemma connect_constructor_retrying (u i : string) :
  retrying 0 (stateOf (connect (constructor u i))).
Proof. repeat split; constructor. Qed.

(** The delay of the [N]th consecutive failure: the schedule is read at
    [N - 1] until the index reaches the length of the schedule, one past
    its last entry. *)
Lemma nth_failure_delay (N : nat) (u i : string) :
  (1 <= N)%nat ->
  scheduledDelay
    (stateOf (consecutiveFailures N (stateOf (connect (constructor u i)))))
  = Some (waitAt (Nat.min (N - 1) (List.length FALLBACK_AND_WAIT_MS))).
Proof.
  intros HN.
  destruct (consecutiveFailures_retrying N _ (connect_constructor_retrying u i))
    as (w' & He & _ & _ & _ & Ht).
  rewrite He. simpl stateOf. destruct N as [|j]; [lia|].
  destruct Ht as (t & Ht & Hfind). unfold scheduledDelay.
  rewrite Ht, Hfind. simpl option_map. now rewrite Nat.sub_succ, Nat.sub_0_r.
Qed.

(** The retry index never exceeds the length of the schedule. *)
Lemma reconnect_keeps_index : stable indexBounded reconnect.
Proof.
  intros w. destruct (reconnect_effect w) as (w' & Hr & _).
  unfold indexBounded. revert Hr.
  unfold reconnect, bind, getThis, setTimeout, bind, getHost, modifyHost,
    modifyThis, ret.
  destruct (reconnectTimeout (this w)); [intros _; simpl; auto|].
  destruct (Nat.ltb_spec (currentWaitIndex (this w))
              (List.length FALLBACK_AND_WAIT_MS)); intros _; simpl in *; lia.
Qed.

Lemma indexBounded_refl (w : World) : indexBounded w w.
Proof. intros H. exact H. Qed.

Lemma indexBounded_trans (w1 w2 w3 : World) :
  indexBounded w1 w2 -> indexBounded w2 w3 -> indexBounded w1 w3.
Proof. unfold indexBounded. auto. Qed.

Ltac index_leaf := unfold indexBounded; cbn; auto; lia.

Ltac index_walk :=
  stable_walk indexBounded_refl indexBounded_trans index_leaf.

Lemma sendOrQueueRequest_keeps_index (request : string) :
  stable indexBounded (sendOrQueueRequest request).
Proof.
  pose proof reconnect_keeps_index.
  unfold sendOrQueueRequest, pushRequest, sendRequest, socketSend.
  index_walk; auto.
Qed.

Lemma flushFilter_keeps_index (rs : list string) (sr : bool) :
  stable indexBounded (flushFilter rs sr).
Proof.
  revert sr. induction rs as [|r rs IH]; intros sr; simpl.
  - index_walk.
  - unfold sendRequest, socketSend. index_walk; auto.
Qed.

Lemma connect_keeps_index : stable indexBounded connect.
Proof. unfold connect, newWebSocket. index_walk. Qed.

Lemma step_keeps_index (e : Event) : stable indexBounded (step e).
Proof.
  pose proof reconnect_keeps_index.
  pose proof sendOrQueueRequest_keeps_index.
  pose proof flushFilter_keeps_index.
  pose proof connect_keeps_index.
  destruct e; unfold step, keepAliveFires, subscribe, subscribeToEvent,
    subscribeToTelemetry,
    unsubscribe, onopen, flushQueue, resubscribeToAll, idleSubscribe,
    onmessage, jsonForEach, onParameter, inheritedCall, invoke, onerror,
    onclose,
    reconnectTimerFires, clearTimeout, setInterval,
    eventSubscribe,
    tlmSubscribe, eventUnsubscribe, tlmUnsubscribe, idleTlmSubscribe;
    index_walk; auto.
Qed.

(** C3, at seven consecutive failures. The first six delays follow the
    schedule, and the retry index stops at the length of the schedule;
    but the seventh reconnect reads the schedule at that index, one past
    its last entry, so its delay is [undefined] where the final duration
    of 30000 ms was to be reused. *)
Theorem seventh_reconnect_delay_undefined (u i : string) :
  let w0 := stateOf (connect (constructor u i)) in
  let delayOf n := scheduledDelay (stateOf (consecutiveFailures n w0)) in
  map delayOf [1; 2; 3; 4; 5; 6]%nat
  = map (fun ms => Some (Milliseconds ms)) FALLBACK_AND_WAIT_MS
  /\ delayOf 7%nat = Some UndefinedDelay
  /\ currentWaitIndex (this (stateOf (consecutiveFailures 7 w0)))
     = List.length FALLBACK_AND_WAIT_MS
  /\ waitAt (Nat.min (7 - 1) (List.length FALLBACK_AND_WAIT_MS - 1))
     = Milliseconds 30000.
Proof.
  cbv zeta. split; [|split; [|split]].
  - cbn [map]. rewrite !nth_failure_delay by lia. reflexivity.
  - rewrite nth_failure_delay by lia. reflexivity.
  - destruct (consecutiveFailures_retrying 7 _
                (connect_constructor_retrying u i)) as (w' & He & _ & Hi & _).
    rewrite He. exact Hi.
  - reflexivity.
Qed.

(** ** A successful open *)

Lemma anyFails_none (n : nat) :
  forall k,
    (forall i, (i < n)%nat -> sendFails (k + i) = false) ->
    anyFails k n = false.
Proof.
  induction n as [|n IH]; intros k H; simpl; auto.
  rewrite <- (Nat.add_0_r k) at 1. rewrite H by lia. simpl.
  apply IH. intros i Hi. rewrite Nat.add_succ_comm. apply H. lia.
Qed.

Lemma sentFrom_all (rs : list string) :
  forall k seq,
    anyFails k (List.length rs) = false -> sentFrom k seq rs = frames seq rs.
Proof.
  induction rs as [|r rs IH]; intros k seq H; simpl in *; auto.
  destruct (sendFails k); simpl in *; [discriminate|].
  f_equal. now apply IH.
Qed.

Lemma frames_app (a b : list string) :
  forall seq,
    frames seq (a ++ b)
    = (frames seq a ++ frames (seq + Z.of_nat (List.length a)) b)%list.
Proof.
  induction a as [|x a IH]; intros seq; simpl frames; simpl List.length.
  - now rewrite Z.add_0_r.
  - rewrite IH. simpl. do 3 f_equal. lia.
Qed.

(** A drain in which no send fails empties the queue and changes nothing
    else of the provider but the sequence number. *)
Lemma flushQueue_clean (w : World) :
  socket (this w) <> None ->
  anyFails (attempts (host w)) (List.length (requests (this w))) = false ->
  exists w',
    flushQueue w = Normal tt w'
    /\ requests (this w') = []
    /\ wire (host w')
       = (wire (host w) ++ frames (seqNo (this w)) (requests (this w)))%list
    /\ connected (this w') = connected (this w)
    /\ listener (this w') = listener (this w)
    /\ currentWaitIndex (this w') = currentWaitIndex (this w).
Proof.
  intros Hsock Hnone. unfold flushQueue. unfold bind at 1. unfold getThis.
  unfold bind at 1.
  destruct (flushFilter_effect (requests (this w)) false w Hsock)
    as (w1 & He & Hw & _ & _ & Hc & _ & Hl & _ & Hci & _).
  rewrite He, Hnone. simpl orb. unfold bind at 1. unfold modifyThis at 1.
  cbn [fst snd]. unfold ret. eexists. split; [reflexivity|]. cbn.
  rewrite Hw, Hc, Hl, Hci, Hnone, (sentFrom_all _ _ _ Hnone).
  rewrite (keptFrom_none _ _ Hnone). auto.
Qed.

(** X12. When every send goes through, the open handler leaves the provider
    connected with the retry index back at zero and the queue empty,
    having put on the wire first the sweep's requests, then the queued
    ones, in order. *)
Lemma onopen_success (w : World) :
  socket (this w) <> None ->
  (forall i,
      (i < List.length (obj_keys (listener (this w)))
           + List.length (requests (this w)))%nat ->
      sendFails (attempts (host w) + i) = false) ->
  exists w',
    onopen w = Normal tt w'
    /\ connected (this w') = true
    /\ currentWaitIndex (this w') = 0%nat
    /\ requests (this w') = []
    /\ listener (this w') = listener (this w)
    /\ wire (host w')
       = (wire (host w)
          ++ frames (seqNo (this w))
               (map resubscribeRequest (obj_keys (listener (this w)))
                ++ requests (this w)))%list.
Proof.
  intros Hsock Hok.
  unfold onopen. unfold bind at 1. unfold getThis. unfold bind at 1.
  assert (Hclear : exists w1,
             clearTimeout (reconnectTimeout (this w)) w = Normal tt w1
             /\ this w1 = this w
             /\ attempts (host w1) = attempts (host w)
             /\ wire (host w1) = wire (host w)).
  { unfold clearTimeout. destruct (reconnectTimeout (this w));
      unfold modifyHost, ret; eexists; (split; [reflexivity|]); auto. }
  destruct Hclear as (w1 & Hclear & Hthis & Hatt & Hwire). rewrite Hclear.
  unfold bind at 1. unfold setInterval, bind at 1, getHost.
  unfold bind at 1. unfold modifyHost at 1. unfold ret at 1.
  unfold bind at 1. unfold modifyThis at 1.
  unfold bind at 1. unfold modifyThis at 1.
  unfold bind at 1. unfold modifyThis at 1.
  unfold bind at 1. unfold resubscribeToAll. unfold bind at 1.
  unfold getThis.
  cbn [this host listener set_currentWaitIndex set_connected
       set_keepAliveInterval].
  rewrite Hthis.
  match goal with
  | |- context [forEach _ ?ks ?w3] =>
      destruct (sweep_sent ks w3)
        as (w4 & He & Hw4 & Hq4 & Hl4 & Hc4 & Hs4 & Hsq4 & Ha4 & Hi4)
  end.
  { reflexivity. }
  { cbn. exact Hsock. }
  { intros i Hi. cbn. rewrite Hatt. apply Hok. lia. }
  unfold sweepBody in He. rewrite He.
  cbn [this host listener set_currentWaitIndex set_connected
       set_keepAliveInterval connected socket seqNo requests attempts wire
       currentWaitIndex]
    in *.
  destruct (flushQueue_clean w4) as (w' & Hf & Hq' & Hw' & Hc' & Hl' & Hi').
  { now rewrite Hs4. }
  { apply anyFails_none. intros i Hi. rewrite Ha4, Hatt, Hq4 in *.
    rewrite <- Nat.add_assoc. apply Hok. lia. }
  exists w'. split; [exact Hf|].
  rewrite Hw', Hw4, Hwire, Hq4, Hsq4, Hc', Hc4, Hi', Hi4, Hl', Hl4.
  rewrite frames_app, length_map, app_assoc. auto.
Qed.

(** ** The sweep of a reconnect *)



(** ** Registering and unregistering *)

Lemma obj_get_replace_other {V : Type} (k k' : string) (v : V)
  (o : JsObject V) :
  k <> k' -> obj_get k (obj_replace k' v o) = obj_get k o.
Proof.
  intros Hne. unfold obj_get.
  induction o as [|[k0 v0] o IH]; simpl; auto.
  destruct (String.eqb_spec k0 k') as [->|Hk0]; simpl.
  - destruct (String.eqb_spec k' k) as [->|_]; [congruence | reflexivity].
  - destruct (k0 =? k); auto.
Qed.

Lemma assoc_app_hit {V : Type} (k : string) (o o' : list (string * V))
  (v : V) :
  assoc k o = Some v -> assoc k (o ++ o') = Some v.
Proof.
  induction o as [|[k0 v0] o IH]; simpl; [discriminate|].
  destruct (k0 =? k); auto.
Qed.

Lemma obj_get_set_other {V : Type} (k k' : string) (v : V) (o : JsObject V) :
  k <> k' -> obj_get k (obj_set k' v o) = obj_get k o.
Proof.
  intros Hne. unfold obj_set. destruct (obj_has k' o).
  - now apply obj_get_replace_other.
  - unfold obj_get. destruct (assoc k o) as [x|] eqn:E.
    + now apply assoc_app_hit.
    + rewrite assoc_app_miss by assumption. simpl.
      destruct (String.eqb_spec k' k); congruence.
Qed.

Lemma filter_absent {V : Type} (k : string) (o : JsObject V) :
  obj_has k o = false -> filter (fun kv => negb (fst kv =? k)) o = o.
Proof.
  unfold obj_has, obj_get.
  induction o as [|[k0 v0] o IH]; simpl; auto.
  destruct (k0 =? k); [discriminate|]. simpl. intros H. f_equal. auto.
Qed.

Lemma obj_delete_set_absent {V : Type} (k : string) (v : V) (o : JsObject V) :
  k <> "__proto__" ->
  obj_has k o = false -> obj_delete k (obj_set k v o) = o.
Proof.
  intros Hk H. rewrite obj_delete_own by assumption.
  unfold obj_set. rewrite H.
  rewrite filter_app. simpl. rewrite String.eqb_refl. simpl.
  rewrite app_nil_r. now apply filter_absent.
Qed.

Lemma sendOrQueueRequest_issues_one (request : string) (w : World) :
  exists o w',
    sendOrQueueRequest request w = Normal o w'
    /\ listener (this w') = listener (this w)
    /\ issued w' = S (issued w).
Proof.
  destruct (sendOrQueueRequest_effect request w)
    as (o & w' & He & Hl & _ & _ & Hd).
  exists o, w'. split; [exact He|]. split; [exact Hl|].
  unfold issued.
  destruct Hd as [(_ & _ & _ & _ & _ & _ & _ & Hw & Hq)|(_ & _ & Hw & Hq)];
    rewrite Hw, Hq, length_app; simpl; lia.
Qed.

(** What [subscribe] comes to, in every state. *)
Lemma subscribe_result (domainObject : DomainObject) (callback : Callback)
  (w : World) :
  exists w',
    subscribe domainObject callback w
    = Normal (if key (identifier domainObject) =? EVENTS_OBJECT_TYPE
              then EventHandle (key (identifier domainObject))
              else TelemetryHandle (key (identifier domainObject))) w'
    /\ listener (this w')
       = obj_set (key (identifier domainObject)) callback (listener (this w))
    /\ issued w' = (if connected (this w) then S (issued w) else issued w).
Proof.
  set (cid := key (identifier domainObject)).
  set (w0 := {| this := set_listener (obj_set cid callback (listener (this w)))
                          (this w);
                host := host w |}).
  unfold subscribe. fold cid. unfold bind at 1. unfold modifyThis at 1.
  fold w0.
  assert (Hc : connected (this w0) = connected (this w)) by reflexivity.
  assert (Hi : issued w0 = issued w) by reflexivity.
  destruct (cid =? EVENTS_OBJECT_TYPE).
  - unfold subscribeToEvent, bind, getThis. rewrite Hc.
    destruct (connected (this w)).
    + unfold eventSubscribe, bind.
      destruct (sendOrQueueRequest_issues_one eventSubscribeRequest w0)
        as (o & w' & Hs & Hl & Hn).
      rewrite Hs. unfold ret. exists w'. rewrite Hl, Hn, Hi. auto.
    + unfold ret. exists w0. auto.
  - unfold subscribeToTelemetry, bind, getThis. rewrite Hc.
    destruct (connected (this w)).
    + unfold tlmSubscribe, bind.
      destruct (sendOrQueueRequest_issues_one
                  (tlmSubscribeRequest (idToQualifiedName cid)) w0)
        as (o & w' & Hs & Hl & Hn).
      rewrite Hs. unfold ret. exists w'. rewrite Hl, Hn, Hi. auto.
    + unfold ret. exists w0. auto.
Qed.

Lemma unsubscribe_result (h : UnsubscribeHandle) (w : World) :
  exists w',
    unsubscribe h w = Normal tt w'
    /\ listener (this w') = obj_delete (handleId h) (listener (this w)).
Proof.
  destruct (sendOrQueueRequest_issues_one (unsubscribeRequest h) w)
    as (o & w' & Hs & Hl & _).
  exists {| this := set_listener (obj_delete (handleId h) (listener (this w')))
                      (this w');
            host := host w' |}.
  split.
  - destruct h; unfold unsubscribe, tlmUnsubscribe, eventUnsubscribe, bind;
      cbn in Hs |- *; rewrite Hs; reflexivity.
  - cbn. now rewrite Hl.
Qed.

(** X1. In a registry that holds no callback under [__proto__], and for
    an identifier other than [__proto__], [subscribe] does not throw,
    whatever happens to the send: it returns the handle of the identifier
    (the event kind for the event channel, the telemetry kind otherwise),
    leaves the callback registered under the identifier and every other
    entry as it was, and issues exactly one control message when the
    provider is connected and none when it is not. *)
Theorem subscribe_always_registers
  (domainObject : DomainObject) (callback : Callback) (w : World) :
  key (identifier domainObject) <> "__proto__" ->
  plainRegistry w ->
  exists h w',
    subscribe domainObject callback w = Normal h w'
    /\ handleId h = key (identifier domainObject)
    /\ (h = EventHandle (key (identifier domainObject))
        <-> key (identifier domainObject) = EVENTS_OBJECT_TYPE)
    /\ obj_get (key (identifier domainObject)) (listener (this w'))
       = Some callback
    /\ In (key (identifier domainObject)) (obj_keys (listener (this w')))
    /\ (forall k,
           k <> key (identifier domainObject) ->
           obj_get k (listener (this w')) = obj_get k (listener (this w)))
    /\ plainRegistry w'
    /\ issued w' = (if connected (this w) then S (issued w) else issued w).
Proof.
  intros Hkey Hplain.
  destruct (subscribe_result domainObject callback w) as (w' & He & Hl & Hi).
  eexists _, w'. split; [exact He|].
  assert (Hrest :
    obj_get (key (identifier domainObject)) (listener (this w'))
    = Some callback
    /\ In (key (identifier domainObject)) (obj_keys (listener (this w')))
    /\ (forall k,
           k <> key (identifier domainObject) ->
           obj_get k (listener (this w')) = obj_get k (listener (this w)))
    /\ plainRegistry w'
    /\ issued w' = (if connected (this w) then S (issued w) else issued w)).
  { rewrite Hl. split; [apply obj_get_set|]. split; [|split; [|split]].
    - apply obj_keys_in. split; [|exact Hkey].
      unfold obj_has. now rewrite obj_get_set.
    - intros k Hk. now apply obj_get_set_other.
    - unfold plainRegistry, obj_has. rewrite Hl.
      rewrite obj_get_set_other by congruence. exact Hplain.
    - exact Hi. }
  destruct (String.eqb_spec (key (identifier domainObject))
              EVENTS_OBJECT_TYPE) as [Heq|Hne].
  - split; [reflexivity|].
    split; [split; intros _; [exact Heq | reflexivity]|]. exact Hrest.
  - split; [reflexivity|]. split; [split; [discriminate | contradiction]|].
    exact Hrest.
Qed.

(** X2. In a registry that holds no callback under [__proto__],
    registering a channel that was not registered, under an identifier
    other than [__proto__], and then invoking the handle that [subscribe]
    returned gives back the registry exactly as it was, entries and
    order. *)
Theorem subscribe_then_unsubscribe_restores_registry
  (domainObject : DomainObject) (callback : Callback) (w : World) :
  key (identifier domainObject) <> "__proto__" ->
  plainRegistry w ->
  obj_has (key (identifier domainObject)) (listener (this w)) = false ->
  exists h w1 w2,
    subscribe domainObject callback w = Normal h w1
    /\ unsubscribe h w1 = Normal tt w2
    /\ listener (this w2) = listener (this w).
Proof.
  intros Hkey _ Hnew.
  destruct (subscribe_result domainObject callback w) as (w1 & He & Hl & _).
  match type of He with
  | _ = Normal ?h _ =>
      destruct (unsubscribe_result h w1) as (w2 & Hu & Hl2);
      exists h, w1, w2; split; [exact He|]; split; [exact Hu|];
      rewrite Hl2, Hl;
      replace (handleId h) with (key (identifier domainObject))
        by (destruct (key (identifier domainObject) =? EVENTS_OBJECT_TYPE);
            reflexivity)
  end.
  now apply obj_delete_set_absent.
Qed.

(** X3. Handles are bound to the identifier, not to the registration: when
    a channel is registered a second time (in a registry that holds no
    callback under [__proto__], under an identifier other than
    [__proto__]), invoking the handle of the first registration removes
    the entry that now holds the second callback, so that the newer
    subscriber is no longer served. *)
Theorem stale_handle_removes_newer_callback
  (domainObject : DomainObject) (first second : Callback) (w : World) :
  key (identifier domainObject) <> "__proto__" ->
  plainRegistry w ->
  exists h1 w1 h2 w2 w3,
    subscribe domainObject first w = Normal h1 w1
    /\ subscribe domainObject second w1 = Normal h2 w2
    /\ h1 = h2
    /\ obj_get (key (identifier domainObject)) (listener (this w2))
       = Some second
    /\ unsubscribe h1 w2 = Normal tt w3
    /\ obj_get (key (identifier domainObject)) (listener (this w3)) = None
    /\ ~ In (key (identifier domainObject)) (obj_keys (listener (this w3))).
Proof.
  intros Hkey _.
  destruct (subscribe_result domainObject first w) as (w1 & He1 & _ & _).
  destruct (subscribe_result domainObject second w1) as (w2 & He2 & Hl2 & _).
  match type of He1 with
  | _ = Normal ?h _ =>
      destruct (unsubscribe_result h w2) as (w3 & Hu & Hl3);
      exists h, w1, h, w2, w3;
      assert (Hid : handleId h = key (identifier domainObject))
        by (destruct (key (identifier domainObject) =? EVENTS_OBJECT_TYPE);
            reflexivity)
  end.
  assert (Hgone :
    obj_get (key (identifier domainObject)) (listener (this w3)) = None).
  { rewrite Hl3, Hid. now apply obj_get_delete. }
  split; [exact He1|]. split; [exact He2|]. split; [reflexivity|].
  split; [rewrite Hl2; apply obj_get_set|]. split; [exact Hu|].
  split; [exact Hgone|].
  intros Hin. apply obj_keys_in in Hin. destruct Hin as [Hhas _].
  unfold obj_has in Hhas. now rewrite Hgone in Hhas.
Qed.


(** ** Dispatching inbound frames *)

(** X5. An update the handler cannot read (its [id] is missing, say) at
    the head of the updates of a PARAMETER frame raises the exception out
    of the handler before any callback is called: the state is as it
    was, and the updates after it in the frame are not delivered. *)
Theorem malformed_update_aborts_frame
  (data : list Json) (d : Json) (bad : Json) (rest : list Json)
  (e : Exception) (w : World) :
  (4 <= List.length data)%nat ->
  prop (nth 3 data JUndefined) "dt" = inr (JStr "PARAMETER") ->
  prop (nth 3 data JUndefined) "data" = inr d ->
  prop d "parameter" = inr (JArr (bad :: rest)) ->
  buildPoint bad = inl e ->
  onmessage data w = Throw e w.
Proof.
  intros Hlen Hdt Hd Hps Hbad.
  rewrite (onmessage_parameter data d _ w Hlen Hdt Hd Hps).
  unfold bind at 1. simpl forEach. unfold bind at 1.
  unfold onParameter. unfold bind at 1.
  rewrite Hbad. reflexivity.
Qed.

Lemma onlyCallsAdded_refl (w : World) : onlyCallsAdded w w.
Proof.
  unfold onlyCallsAdded. repeat split. exists []. now rewrite app_nil_r.
Qed.

Lemma onlyCallsAdded_trans (w1 w2 w3 : World) :
  onlyCallsAdded w1 w2 -> onlyCallsAdded w2 w3 -> onlyCallsAdded w1 w3.
Proof.
  intros (Ht & Hto & Hi & Hn & Hs & Ha & Hw & a & Hc)
         (Ht' & Hto' & Hi' & Hn' & Hs' & Ha' & Hw' & b & Hc').
  unfold onlyCallsAdded.
  rewrite Ht', Hto', Hi', Hn', Hs', Ha', Hw', Hc', Hc.
  repeat split; auto. exists (a ++ b)%list. now rewrite app_assoc.
Qed.

Ltac calls_leaf :=
  unfold onlyCallsAdded; cbn; repeat split; eexists; reflexivity.

(** X6. Whatever arrives on the socket, and however the handler ends,
    handling an inbound frame changes neither the provider's fields
    (connection state, registry, queue, retry index) nor the timers, the
    sockets or the wire: at most callbacks have been called. *)
Theorem onmessage_only_calls_callbacks (data : list Json) (w : World) :
  onlyCallsAdded w (stateOf (onmessage data w)).
Proof.
  revert w. change (stable onlyCallsAdded (onmessage data)).
  unfold onmessage, jsonForEach, onParameter, inheritedCall, invoke.
  stable_walk onlyCallsAdded_refl onlyCallsAdded_trans calls_leaf.
Qed.


(** ** Reconnecting *)

(** X7. However often it is called in a row, [reconnect] schedules a
    single timer and advances the retry index once; so the error event of
    a socket followed by its close event has the effect of the error event
    alone. *)
Theorem error_then_close_schedules_once (w : World) :
  (reconnect ;; reconnect) w = reconnect w
  /\ (onerror ;; onclose) w = onerror w
  /\ (onclose ;; onerror) w = onclose w.
Proof.
  assert (Hrr : forall w0 : World, (reconnect ;; reconnect) w0 = reconnect w0).
  { intros w0.
    unfold reconnect, bind, getThis, setTimeout, bind, getHost, modifyHost,
      modifyThis, ret.
    destruct (reconnectTimeout (this w0)) eqn:E.
    - cbn. now rewrite E.
    - destruct (currentWaitIndex (this w0)
                <? List.length FALLBACK_AND_WAIT_MS)%nat; reflexivity. }
  assert (Hec : forall w0 : World,
             ((modifyThis (set_connected false) ;; reconnect) ;;
              (modifyThis (set_connected false) ;; reconnect)) w0
             = (modifyThis (set_connected false) ;; reconnect) w0).
  { intros w0.
    unfold reconnect, bind, getThis, setTimeout, bind, getHost, modifyHost,
      modifyThis, ret.
    cbn [this host reconnectTimeout set_connected currentWaitIndex].
    destruct (reconnectTimeout (this w0)) eqn:E.
    - cbn. now rewrite E.
    - destruct (currentWaitIndex (this w0)
                <? List.length FALLBACK_AND_WAIT_MS)%nat; reflexivity. }
  split; [apply Hrr|]. split; apply Hec.
Qed.

Lemma reconnect_keeps_timer : stable oneTimerKept reconnect.
Proof.
  intros w [Hlen Hin].
  unfold reconnect, bind, getThis, setTimeout, bind, getHost, modifyHost,
    modifyThis, ret.
  destruct (reconnectTimeout (this w)) eqn:E.
  - split; [exact Hlen|]. intros e He. simpl. rewrite E. now apply Hin.
  - assert (Hnil : timeouts (host w) = []).
    { destruct (timeouts (host w)) as [|e l]; [reflexivity|].
      specialize (Hin e (or_introl eq_refl)). discriminate. }
    destruct (currentWaitIndex (this w)
              <? List.length FALLBACK_AND_WAIT_MS)%nat;
      unfold oneTimer; cbn; rewrite Hnil; simpl;
      (split; [lia | intros e [<-|[]]; reflexivity]).
Qed.

Lemma reconnectTimerFires_keeps_timer (t : positive) :
  stable oneTimerKept (reconnectTimerFires t).
Proof.
  intros w [Hlen Hin].
  unfold reconnectTimerFires. unfold bind at 1. unfold getHost.
  destruct (existsb (fun e => Pos.eqb (fst e) t) (timeouts (host w))) eqn:Hex.
  - apply existsb_exists in Hex. destruct Hex as (e & He & Heq).
    assert (Hone : timeouts (host w) = [e]).
    { destruct (timeouts (host w)) as [|e0 [|e1 l]]; simpl in *;
        [contradiction | | lia].
      destruct He as [->|[]]. reflexivity. }
    unfold bind, modifyHost, connect, bind, getThis, modifyThis,
      newWebSocket, bind, getHost, modifyHost, ret.
    cbn [this host connected].
    destruct (connected (this w)); unfold oneTimer; cbn;
      rewrite Hone; simpl; rewrite Heq; simpl;
      (split; [lia | intros ? []]).
  - unfold ret. split; assumption.
Qed.

Lemma oneTimerKept_refl (w : World) : oneTimerKept w w.
Proof. intros H. exact H. Qed.

Lemma oneTimerKept_trans (w1 w2 w3 : World) :
  oneTimerKept w1 w2 -> oneTimerKept w2 w3 -> oneTimerKept w1 w3.
Proof. unfold oneTimerKept. auto. Qed.

Ltac timer_leaf :=
  unfold oneTimerKept, oneTimer; cbn; intros [Hlen Hin];
  split;
  [ first [ exact Hlen
          | eapply Nat.le_trans; [apply filter_length_le | exact Hlen] ]
  | first [ exact Hin
          | intros e He; apply filter_In in He; apply Hin, He ] ].

Ltac timer_walk :=
  stable_walk oneTimerKept_refl oneTimerKept_trans timer_leaf.

Lemma sendOrQueueRequest_keeps_timer (request : string) :
  stable oneTimerKept (sendOrQueueRequest request).
Proof.
  pose proof reconnect_keeps_timer.
  unfold sendOrQueueRequest, pushRequest, sendRequest, socketSend.
  timer_walk; auto.
Qed.

Lemma flushFilter_keeps_timer (rs : list string) (sr : bool) :
  stable oneTimerKept (flushFilter rs sr).
Proof.
  revert sr. induction rs as [|r rs IH]; intros sr; simpl.
  - timer_walk.
  - unfold sendRequest, socketSend. timer_walk; auto.
Qed.

Lemma step_keeps_timer (e : Event) : stable oneTimerKept (step e).
Proof.
  pose proof reconnect_keeps_timer.
  pose proof reconnectTimerFires_keeps_timer.
  pose proof sendOrQueueRequest_keeps_timer.
  pose proof flushFilter_keeps_timer.
  destruct e; unfold step, keepAliveFires, subscribe, subscribeToEvent,
    subscribeToTelemetry,
    unsubscribe, onopen, flushQueue, resubscribeToAll, idleSubscribe,
    onmessage, jsonForEach, onParameter, inheritedCall, invoke, onerror,
    onclose,
    connect, newWebSocket, clearTimeout, setInterval,
    eventSubscribe,
    tlmSubscribe, eventUnsubscribe, tlmUnsubscribe, idleTlmSubscribe;
    timer_walk; auto.
Qed.

(** X8. In every state a provider can reach from its construction, by any
    sequence of calls, socket events and timers, at most one reconnect
    timer is pending, and a pending timer is the one whose handle the
    provider holds. *)
Theorem at_most_one_reconnect_timer (es : list Event) (u i : string) :
  oneTimer (run es (constructor u i)).
Proof.
  assert (Hrun : forall w, oneTimer w -> oneTimer (run es w)).
  { induction es as [|e es IH]; intros w Hw; simpl; auto.
    apply IH. now apply step_keeps_timer. }
  apply Hrun. split; simpl; [lia | intros e []].
Qed.

(** X14. In every state a provider can reach from its construction the
    retry index is at most the length of the schedule. *)
Theorem retry_index_bounded (es : list Event) (u i : string) :
  (currentWaitIndex (this (run es (constructor u i)))
   <= List.length FALLBACK_AND_WAIT_MS)%nat.
Proof.
  assert (Hrun : forall w,
             (currentWaitIndex (this w)
              <= List.length FALLBACK_AND_WAIT_MS)%nat ->
             (currentWaitIndex (this (run es w))
              <= List.length FALLBACK_AND_WAIT_MS)%nat).
  { induction es as [|e es IH]; intros w Hw; simpl; auto.
    apply IH. now apply step_keeps_index. }
  apply Hrun. simpl. lia.
Qed.

Lemma reconnect_keeps_handle : stable handleKept reconnect.
Proof.
  intros w t Ht. unfold reconnect, bind, getThis. rewrite Ht.
  split; [exact Ht | reflexivity].
Qed.

Lemma handleKept_refl (w : World) : handleKept w w.
Proof. intros t Ht. auto. Qed.

Lemma handleKept_trans (w1 w2 w3 : World) :
  handleKept w1 w2 -> handleKept w2 w3 -> handleKept w1 w3.
Proof.
  intros H12 H23 t Ht. destruct (H12 t Ht) as [Ht2 Hto2].
  destruct (H23 t Ht2) as [Ht3 Hto3]. split; congruence.
Qed.

Ltac handle_leaf := unfold handleKept; cbn; auto.

Ltac handle_walk :=
  stable_walk handleKept_refl handleKept_trans handle_leaf.

Lemma sendOrQueueRequest_keeps_handle (request : string) :
  stable handleKept (sendOrQueueRequest request).
Proof.
  pose proof reconnect_keeps_handle.
  unfold sendOrQueueRequest, pushRequest, sendRequest, socketSend.
  handle_walk; auto.
Qed.

Lemma flushFilter_keeps_handle (rs : list string) (sr : bool) :
  stable handleKept (flushFilter rs sr).
Proof.
  revert sr. induction rs as [|r rs IH]; intros sr; simpl.
  - handle_walk.
  - unfold sendRequest, socketSend. handle_walk; auto.
Qed.

(** X9. The open handler cancels a pending reconnect timer but keeps its
    handle. When a socket opens while a timer is pending, the handle stays
    set with no timer behind it, and the close (or error) of that socket
    then schedules nothing: the provider is left disconnected with no
    reconnect pending. *)
Theorem open_with_pending_timer_blocks_reconnect (t : positive) (w : World) :
  reconnectTimeout (this w) = Some t ->
  oneTimer w ->
  reconnectTimeout (this (stateOf (onopen w))) = Some t
  /\ timeouts (host (stateOf (onopen w))) = []
  /\ connected (this (stateOf (onclose (stateOf (onopen w))))) = false
  /\ timeouts (host (stateOf (onclose (stateOf (onopen w))))) = []
  /\ timeouts (host (stateOf (onerror (stateOf (onopen w))))) = [].
Proof.
  intros Ht [Hlen Hin].
  pose proof reconnect_keeps_handle as Hre.
  pose proof sendOrQueueRequest_keeps_handle as Hsq.
  pose proof flushFilter_keeps_handle as Hff.
  assert (Hdrop : filter (fun e => negb (Pos.eqb (fst e) t))
                    (timeouts (host w)) = []).
  { destruct (timeouts (host w)) as [|e [|e1 l]]; simpl in *;
      [reflexivity | | lia].
    specialize (Hin e (or_introl eq_refl)). rewrite Ht in Hin.
    injection Hin as ->. now rewrite Pos.eqb_refl. }
  assert (Hopen : reconnectTimeout (this (stateOf (onopen w))) = Some t
                  /\ timeouts (host (stateOf (onopen w))) = []).
  { assert (Heq : onopen w
                  = (i <- setInterval WS_IDLE_INTERVAL_MS ;;
                     modifyThis (set_keepAliveInterval (Some i)) ;;
                     modifyThis (set_connected true) ;;
                     modifyThis (set_currentWaitIndex 0) ;;
                     resubscribeToAll ;;
                     flushQueue)
                      {| this := this w; host := dropTimeout t (host w) |}).
    { unfold onopen. unfold bind at 1. unfold getThis. rewrite Ht.
      unfold bind at 1. reflexivity. }
    rewrite Heq.
    match goal with
    | |- context [stateOf (?tail ?w1)] =>
        assert (Htail : stable handleKept tail);
        [| destruct (Htail w1 t Ht) as [H1 H2]; split; [exact H1|];
           rewrite H2; exact Hdrop ]
    end.
    unfold setInterval, resubscribeToAll, flushQueue, eventSubscribe,
      tlmSubscribe.
    handle_walk; auto. }
  destruct Hopen as [Ht1 Hto1].
  assert (Hlater : forall w1 : World,
             reconnectTimeout (this w1) = Some t ->
             timeouts (host w1) = [] ->
             connected
               (this (stateOf ((modifyThis (set_connected false) ;; reconnect)
                                 w1))) = false
             /\ timeouts
                  (host (stateOf ((modifyThis (set_connected false) ;;
                                   reconnect) w1))) = []).
  { intros w1 H1 H2. unfold bind, modifyThis, reconnect, bind, getThis.
    cbn [this host reconnectTimeout set_connected]. rewrite H1.
    unfold ret. cbn. auto. }
  split; [exact Ht1|]. split; [exact Hto1|].
  destruct (Hlater _ Ht1 Hto1) as [Hc Hto]. auto.
Qed.

(** X15. [connect] does nothing while the provider is connected. While it
    is not, every call opens one more socket, whether or not an earlier
    one is still there, makes it the provider's socket and restarts the
    sequence numbers; called twice before the first socket opens, it
    leaves two sockets behind. *)
Theorem connect_opens_a_socket_unless_connected (w : World) :
  (connected (this w) = true -> connect w = Normal tt w)
  /\ (connected (this w) = false ->
      exists w1 w2,
        connect w = Normal tt w1
        /\ connect w1 = Normal tt w2
        /\ sockets (host w1)
           = (sockets (host w)
              ++ [(url (this w) ++ "_websocket/"
                   ++ instance (this w))%string])%list
        /\ socket (this w1) = Some (List.length (sockets (host w)))
        /\ seqNo (this w1) = 0%Z
        /\ connected (this w1) = false
        /\ List.length (sockets (host w2))
           = S (S (List.length (sockets (host w))))
        /\ socket (this w2) = Some (S (List.length (sockets (host w))))
        /\ listener (this w2) = listener (this w)
        /\ requests (this w2) = requests (this w)).
Proof.
  split; intros Hc.
  - unfold connect, bind, getThis. now rewrite Hc.
  - unfold connect, bind, getThis, modifyThis, newWebSocket, bind, getHost,
      modifyHost, ret.
    cbn [this host connected set_socket set_connected set_seqNo].
    rewrite Hc. eexists _, _. split; [reflexivity|].
    split; [reflexivity|]. cbn.
    repeat split. all: rewrite !length_app; simpl; try lia.
    f_equal. lia.
Qed.


(** ** Sequence numbers, keepalive and conservation of messages *)

Lemma frames_length (rs : list string) :
  forall seq, List.length (frames seq rs) = List.length rs.
Proof. induction rs as [|r rs IH]; intros seq; simpl; auto. Qed.

Lemma kept_sent_length (rs : list string) :
  forall k seq,
    (List.length (keptFrom k rs) + List.length (sentFrom k seq rs)
     = List.length rs)%nat.
Proof.
  induction rs as [|r rs IH]; intros k seq; simpl; auto.
  destruct (sendFails k); simpl; rewrite <- (IH (S k) (seq + 1)%Z); lia.
Qed.

(** A loop that hands one request per key to [sendOrQueueRequest]: the
    requests before the first failure go on the wire, the others are
    appended to the queue, and none is sent while disconnected. *)
Lemma forEach_send_general (req : string -> string)
  (body : string -> M unit) :
  (forall id w, body id w = (sendOrQueueRequest (req id) ;; ret tt) w) ->
  forall (ks : list string) (w : World),
    exists w' sent queued,
      forEach body ks w = Normal tt w'
      /\ map req ks = (sent ++ queued)%list
      /\ wire (host w')
         = (wire (host w) ++ frames (seqNo (this w)) sent)%list
      /\ requests (this w') = (requests (this w) ++ queued)%list
      /\ listener (this w') = listener (this w)
      /\ socket (this w') = socket (this w)
      /\ (connected (this w) = false -> sent = []).
Proof.
  intros Hbody. induction ks as [|k ks IH]; intros w; simpl.
  - exists w, [], []. unfold ret. simpl. rewrite !app_nil_r. auto 10.
  - unfold bind at 1. rewrite Hbody. unfold bind at 1.
    destruct (sendOrQueueRequest_effect (req k) w)
      as (o & w1 & Hs & Hl & Hso & _ & Hd).
    rewrite Hs. unfold ret at 1.
    destruct (IH w1) as (w' & sent & queued & He & Hm & Hw' & Hq' & Hl'
                         & Hso' & Hoff).
    destruct Hd as [(Hon & _ & _ & _ & _ & Hsq & _ & Hw & Hq)
                   |(_ & Hc & Hw & Hq)].
    + exists w', (req k :: sent), queued.
      rewrite He, Hw', Hq', Hl', Hso', Hw, Hq, Hsq, Hl, Hso, Hm. simpl.
      rewrite <- app_assoc. repeat split; auto. congruence.
    + specialize (Hoff Hc). subst sent.
      exists w', [], (req k :: queued).
      rewrite He, Hw', Hq', Hl', Hso', Hw, Hq, Hl, Hso. simpl in *.
      rewrite Hm, <- app_assoc, !app_nil_r. repeat split; auto.
Qed.



(** The drain, whatever the sends do: no request is lost or duplicated,
    and the sequence number has advanced by the length of the queue. *)
Lemma flushQueue_conserves (w : World) :
  socket (this w) <> None ->
  exists w',
    flushQueue w = Normal tt w'
    /\ issued w' = issued w
    /\ listener (this w') = listener (this w)
    /\ seqNo (this w')
       = (seqNo (this w) + Z.of_nat (List.length (requests (this w))))%Z.
Proof.
  intros Hsock. unfold flushQueue. unfold bind at 1. unfold getThis.
  unfold bind at 1.
  destruct (flushFilter_effect (requests (this w)) false w Hsock)
    as (w1 & He & Hw & _ & Hsq & _ & _ & Hl & _).
  rewrite He. unfold bind at 1. unfold modifyThis at 1. cbn [fst snd].
  assert (Hcount : (List.length (wire (host w1))
                    + List.length
                        (keptFrom (attempts (host w)) (requests (this w)))
                    = issued w)%nat).
  { unfold issued. rewrite Hw, length_app.
    rewrite <- (kept_sent_length (requests (this w)) (attempts (host w))
                  (seqNo (this w))). lia. }
  destruct (false || anyFails (attempts (host w))
                       (List.length (requests (this w)))).
  - match goal with
    | |- context [reconnect ?w2] =>
        destruct (reconnect_effect w2) as (w' & Hr & Hk & _)
    end.
    destruct Hk as (Hl' & Hq' & _ & Hsq' & _ & _ & Hwi' & _).
    cbn in *. exists w'. split; [exact Hr|].
    unfold issued. rewrite Hl', Hq', Hsq', Hwi'. auto.
  - unfold ret. eexists. split; [reflexivity|]. unfold issued. cbn. auto.
Qed.

(** X11. The sequence number counts send attempts, not messages sent:
    [sendOrQueueRequest] advances it by one whenever the provider is
    connected, also when the send throws and the request ends in the
    queue, and leaves it alone when the provider is disconnected; a drain
    advances it by the length of the queue whatever the sends do. *)
Theorem sequence_number_counts_attempts (w : World) :
  (forall request,
      exists o w',
        sendOrQueueRequest request w = Normal o w'
        /\ seqNo (this w')
           = (if connected (this w) then seqNo (this w) + 1
              else seqNo (this w))%Z)
  /\ (socket (this w) <> None ->
      exists w',
        flushQueue w = Normal tt w'
        /\ seqNo (this w')
           = (seqNo (this w) + Z.of_nat (List.length (requests (this w))))%Z).
Proof.
  split.
  - intros request.
    assert (Hcatch : forall w1 : World,
      exists w',
        (modifyThis (set_connected false) ;; pushRequest request ;;
         reconnect ;; ret ReturnedUndefined) w1 = Normal ReturnedUndefined w'
        /\ seqNo (this w') = seqNo (this w1)).
    { intros w1. unfold bind, modifyThis, pushRequest, ret. cbn.
      match goal with
      | |- context [reconnect ?w2] =>
          destruct (reconnect_effect w2) as (w' & Hr & Hk & _); rewrite Hr
      end.
      destruct Hk as (_ & _ & _ & Hsq & _). cbn in *. eauto. }
    unfold sendOrQueueRequest. unfold bind at 1. unfold getThis.
    destruct (connected (this w)) eqn:Hc.
    + unfold try_catch. unfold bind at 1. rewrite sendRequest_eq. cbn zeta.
      destruct (socket (this w)) as [s|].
      * destruct (sendFails (attempts (host w))).
        -- match goal with
           | |- context [@bind _ _ _ _ ?w1] =>
               destruct (Hcatch w1) as (w' & Hr & Hsq)
           end.
           exists ReturnedUndefined, w'. split; [exact Hr|].
           rewrite Hsq. reflexivity.
        -- eexists _, _. split; reflexivity.
      * match goal with
        | |- context [@bind _ _ _ _ ?w1] =>
            destruct (Hcatch w1) as (w' & Hr & Hsq)
        end.
        exists ReturnedUndefined, w'. split; [exact Hr|].
        rewrite Hsq. reflexivity.
    + unfold bind, pushRequest, modifyThis, ret.
      eexists _, _. split; reflexivity.
  - intros Hsock.
    destruct (flushQueue_conserves w Hsock) as (w' & He & _ & _ & Hsq).
    exists w'. auto.
Qed.

(** X13. The open handler loses no message and duplicates none, whatever
    the sends do: the messages on the wire or in the queue after it are
    those that were there before, plus one subscribe request per
    registered channel. *)
Theorem onopen_conserves_messages (w : World) :
  socket (this w) <> None ->
  exists w',
    onopen w = Normal tt w'
    /\ issued w'
       = (issued w + List.length (obj_keys (listener (this w))))%nat
    /\ listener (this w') = listener (this w).
Proof.
  intros Hsock.
  unfold onopen. unfold bind at 1. unfold getThis. unfold bind at 1.
  assert (Hclear : exists w1,
             clearTimeout (reconnectTimeout (this w)) w = Normal tt w1
             /\ this w1 = this w
             /\ wire (host w1) = wire (host w)).
  { unfold clearTimeout. destruct (reconnectTimeout (this w));
      unfold modifyHost, ret; eexists; (split; [reflexivity|]); auto. }
  destruct Hclear as (w1 & Hclear & Hthis & Hwire). rewrite Hclear.
  unfold bind at 1. unfold setInterval, bind at 1, getHost.
  unfold bind at 1. unfold modifyHost at 1. unfold ret at 1.
  unfold bind at 1. unfold modifyThis at 1.
  unfold bind at 1. unfold modifyThis at 1.
  unfold bind at 1. unfold modifyThis at 1.
  unfold bind at 1. unfold resubscribeToAll. unfold bind at 1.
  unfold getThis.
  cbn [this host listener set_currentWaitIndex set_connected
       set_keepAliveInterval].
  rewrite Hthis.
  match goal with
  | |- context [forEach _ ?ks ?w3] =>
      destruct (forEach_send_general resubscribeRequest sweepBody
                  sweep_body_eq ks w3)
        as (w4 & sent & queued & He & Hm & Hw4 & Hq4 & Hl4 & Hs4 & _)
  end.
  unfold sweepBody in He. rewrite He.
  cbn [this host listener set_currentWaitIndex set_connected
       set_keepAliveInterval connected socket seqNo requests attempts wire]
    in *.
  destruct (flushQueue_conserves w4) as (w' & Hf & Hi & Hl & _).
  { now rewrite Hs4. }
  exists w'. split; [exact Hf|]. rewrite Hi, Hl, Hl4.
  split; [|reflexivity].
  unfold issued. rewrite Hw4, Hq4, Hwire, !length_app, frames_length.
  rewrite <- (length_map resubscribeRequest
                (obj_keys (listener (this w)))).
  rewrite Hm, length_app. lia.
Qed.


End Provider.

Arguments Normal {Callback A} a w.
Arguments Throw {Callback A} e w.

(** ** The limit evaluator *)

Lemma inheritedName_false (k : string) :
  ~ In k objectPrototypeNames -> inheritedName k = false.
Proof.
  intros Hn. unfold inheritedName.
  destruct (existsb (String.eqb k) objectPrototypeNames) eqn:E; auto.
  apply existsb_exists in E. destruct E as (x & Hx & Heq).
  apply String.eqb_eq in Heq. now subst x.
Qed.

Lemma table_miss (mr : string) :
  ~ In mr recognizedSeverities -> obj_get mr MONITORING_RESULT_CSS = None.
Proof.
  intros Hn. unfold obj_get, MONITORING_RESULT_CSS. cbn [assoc].
  repeat match goal with
         | |- context [String.eqb ?a mr] =>
             destruct (String.eqb_spec a mr) as [<-|_];
             [exfalso; apply Hn; simpl; tauto|]
         end.
  reflexivity.
Qed.

(** A name that is neither a severity nor inherited is not [in] the
    table of monitoring results. *)
Lemma tableValue_miss (mr : string) :
  ~ In mr recognizedSeverities ->
  ~ In mr objectPrototypeNames ->
  tableValue mr MONITORING_RESULT_CSS = None.
Proof.
  intros Hn Hp. unfold tableValue.
  now rewrite (table_miss mr Hn), (inheritedName_false mr Hp).
Qed.

Lemma assign_low_high (x : option Number) (r : EvaluationResult) :
  high (LimitEvaluator.assign_if_truthy set_low x r) = high r
  /\ low (LimitEvaluator.assign_if_truthy set_low x r)
     = (if truthy_bound x then x else low r).
Proof.
  unfold LimitEvaluator.assign_if_truthy, truthy_bound.
  destruct x as [n|]; [destruct (truthy_number n)|]; auto.
Qed.

Lemma assign_high_low (x : option Number) (r : EvaluationResult) :
  low (LimitEvaluator.assign_if_truthy set_high x r) = low r
  /\ high (LimitEvaluator.assign_if_truthy set_high x r)
     = (if truthy_bound x then x else high r).
Proof.
  unfold LimitEvaluator.assign_if_truthy, truthy_bound.
  destruct x as [n|]; [destruct (truthy_number n)|]; auto.
Qed.

(** The bounds after [addLimitRange]: the exclusive value when it is
    truthy, else the inclusive value when it is truthy, else what was
    there. *)
Lemma addLimitRange_bounds (datum : Datum) (result : string)
  (r : EvaluationResult) :
  let r' := LimitEvaluator.addLimitRange datum result r in
  match LimitEvaluator.findAlarmRange datum result with
  | None => r' = r
  | Some range =>
      low r' = (if truthy_bound (minExclusive range) then minExclusive range
                else if truthy_bound (minInclusive range)
                     then minInclusive range
                     else low r)
      /\ high r' = (if truthy_bound (maxExclusive range)
                    then maxExclusive range
                    else if truthy_bound (maxInclusive range)
                         then maxInclusive range
                         else high r)
  end.
Proof.
  unfold LimitEvaluator.addLimitRange.
  destruct (LimitEvaluator.findAlarmRange datum result) as [range|];
    [|reflexivity].
  cbv zeta.
  set (r1 := LimitEvaluator.assign_if_truthy set_low (minInclusive range) r).
  set (r2 := LimitEvaluator.assign_if_truthy set_low (minExclusive range) r1).
  set (r3 := LimitEvaluator.assign_if_truthy set_high (maxInclusive range) r2).
  destruct (assign_low_high (minInclusive range) r) as [H1h H1l].
  destruct (assign_low_high (minExclusive range) r1) as [H2h H2l].
  destruct (assign_high_low (maxInclusive range) r2) as [H3l H3h].
  destruct (assign_high_low (maxExclusive range) r3) as [H4l H4h].
  fold r1 in H1h, H1l. fold r2 in H2h, H2l. fold r3 in H3h, H3l.
  split.
  - rewrite H4l, H3l, H2l, H1l. reflexivity.
  - rewrite H4h, H3h, H2h, H1h. reflexivity.
Qed.

Lemma truthy_bound_zero (x : option Number) :
  zeroOrAbsent x -> truthy_bound x = false.
Proof. intros [->|[s ->]]; reflexivity. Qed.

Lemma chosen_bound_not_zero (ex inc : option Number) (s : bool) :
  (if truthy_bound ex then ex
   else if truthy_bound inc then inc else None)
  <> Some (S754_zero s).
Proof.
  destruct (truthy_bound ex) eqn:Hex.
  - intros ->. discriminate.
  - destruct (truthy_bound inc) eqn:Hinc; [|discriminate].
    intros ->. discriminate.
Qed.

(** The evaluator on a recognised severity: the descriptor it returns. *)
Lemma evaluate_recognized (datum : Datum) (vm : Json) (mr : string) :
  monitoringResult datum = Some mr ->
  In mr recognizedSeverities ->
  exists css,
    obj_get mr MONITORING_RESULT_CSS = Some css
    /\ LimitEvaluator.evaluate datum vm
       = Some
           (let base :=
              {| cssClass := css; name := mr; low := None; high := None |} in
            match rangeCondition datum with
            | None => base
            | Some rc =>
                match (if truthy_string rc
                       then tableValue rc RANGE_CONDITION_CSS
                       else None) with
                | None => base
                | Some rcss =>
                    LimitEvaluator.addLimitRange datum mr
                      (set_cssClass (joinClasses (OwnClass css) rcss) base)
                end
            end).
Proof.
  intros Hmr Hin. unfold LimitEvaluator.evaluate. rewrite Hmr.
  simpl in Hin.
  destruct Hin as [<-|[<-|[<-|[<-|[<-|[]]]]]];
    (eexists; split; [reflexivity|]); cbn [truthy_string String.eqb negb];
    cbv zeta;
    destruct (rangeCondition datum) as [rc|]; try reflexivity;
    destruct (if truthy_string rc then tableValue rc RANGE_CONDITION_CSS
              else None); reflexivity.
Qed.

Lemma evaluate_inv (datum : Datum) (vm : Json) (res : EvaluationResult) :
  LimitEvaluator.evaluate datum vm = Some res ->
  exists mr,
    monitoringResult datum = Some mr
    /\ ((low res = None /\ high res = None)
        \/ exists r0,
             low r0 = None /\ high r0 = None
             /\ res = LimitEvaluator.addLimitRange datum mr r0).
Proof.
  unfold LimitEvaluator.evaluate.
  destruct (monitoringResult datum) as [mr|]; [|discriminate].
  destruct (if truthy_string mr then tableValue mr MONITORING_RESULT_CSS
            else None) as [css|]; [|discriminate].
  cbv zeta. intros H. exists mr. split; [reflexivity|].
  destruct (rangeCondition datum) as [rc|].
  - destruct (if truthy_string rc then tableValue rc RANGE_CONDITION_CSS
              else None) as [rcss|]; injection H as <-.
    + right. eexists. split; [|split]. 3: reflexivity. all: reflexivity.
    + left. auto.
  - injection H as <-. left. auto.
Qed.

(** C7 (as amended). The evaluator returns none for a sample without a
    monitoring result and for one whose monitoring result is neither a
    recognised severity nor a property name of [Object.prototype].  For
    the sample with monitoring result CRITICAL, range condition HIGH and
    the alarm range [{level: CRITICAL, maxInclusive: 42}] it returns the
    descriptor whose style class joins the CRITICAL and HIGH tokens and
    whose high is 42.  When the matching alarm-range entry carries an
    exclusive bound that is truthy (neither zero nor NaN), that value is
    the bound of the descriptor, overwriting the inclusive one; an
    exclusive bound that is not truthy leaves the inclusive value, which
    is attached when it is truthy. *)
Theorem evaluate_amended :
  (forall datum vm,
      monitoringResult datum = None ->
      LimitEvaluator.evaluate datum vm = None)
  /\ (forall datum vm mr,
         monitoringResult datum = Some mr ->
         ~ In mr recognizedSeverities ->
         ~ In mr objectPrototypeNames ->
         LimitEvaluator.evaluate datum vm = None)
  /\ (forall datum vm,
         monitoringResult datum = Some "CRITICAL" ->
         rangeCondition datum = Some "HIGH" ->
         alarmRange datum
         = Some [ {| level := Some "CRITICAL";
                     minInclusive := None; minExclusive := None;
                     maxInclusive := Some (number_of_Z 42);
                     maxExclusive := None |} ] ->
         LimitEvaluator.evaluate datum vm
         = Some {| cssClass := "is-limit--red is-limit--upr";
                   name := "CRITICAL";
                   low := None;
                   high := Some (number_of_Z 42) |})
  /\ (forall datum vm mr rc range,
         monitoringResult datum = Some mr ->
         In mr recognizedSeverities ->
         rangeCondition datum = Some rc ->
         In rc recognizedConditions ->
         LimitEvaluator.findAlarmRange datum mr = Some range ->
         exists res,
           LimitEvaluator.evaluate datum vm = Some res
           /\ low res
              = (if truthy_bound (minExclusive range)
                 then minExclusive range
                 else if truthy_bound (minInclusive range)
                      then minInclusive range else None)
           /\ high res
              = (if truthy_bound (maxExclusive range)
                 then maxExclusive range
                 else if truthy_bound (maxInclusive range)
                      then maxInclusive range else None)).
Proof.
  split; [|split; [|split]].
  - intros datum vm H. unfold LimitEvaluator.evaluate. now rewrite H.
  - intros datum vm mr H Hn Hp. unfold LimitEvaluator.evaluate. rewrite H.
    rewrite (tableValue_miss mr Hn Hp). now destruct (truthy_string mr).
  - intros datum vm Hmr Hrc Har.
    unfold LimitEvaluator.evaluate, LimitEvaluator.addLimitRange,
      LimitEvaluator.findAlarmRange.
    rewrite Hmr, Hrc, Har. reflexivity.
  - intros datum vm mr rc range Hmr Hin Hrc Hinrc Hfind.
    destruct (evaluate_recognized datum vm mr Hmr Hin) as (css & _ & He).
    rewrite He, Hrc. cbv zeta.
    assert (Hrcss : exists rcss,
               (if truthy_string rc then tableValue rc RANGE_CONDITION_CSS
                else None) = Some (OwnClass rcss)).
    { simpl in Hinrc. destruct Hinrc as [<-|[<-|[]]]; eexists; reflexivity. }
    destruct Hrcss as (rcss & ->).
    eexists. split; [reflexivity|].
    pose proof (addLimitRange_bounds datum mr
                  (set_cssClass (joinClasses (OwnClass css) (OwnClass rcss))
                     {| cssClass := css; name := mr;
                        low := None; high := None |})) as Hb.
    cbv zeta in Hb. rewrite Hfind in Hb. exact Hb.
Qed.

(** C10. A bound field of the matching alarm-range entry that equals 0 is
    not attached to the descriptor, exactly as an absent one: the
    descriptor never carries a zero [low] or [high], and when both fields
    of a side are zero or absent that side is left unset. *)
Theorem zero_bounds_omitted (datum : Datum) (vm : Json)
  (res : EvaluationResult) :
  LimitEvaluator.evaluate datum vm = Some res ->
  (forall s, low res <> Some (S754_zero s))
  /\ (forall s, high res <> Some (S754_zero s))
  /\ (forall mr range,
         monitoringResult datum = Some mr ->
         LimitEvaluator.findAlarmRange datum mr = Some range ->
         (zeroOrAbsent (minInclusive range) ->
          zeroOrAbsent (minExclusive range) -> low res = None)
         /\ (zeroOrAbsent (maxInclusive range) ->
             zeroOrAbsent (maxExclusive range) -> high res = None)).
Proof.
  intros He.
  destruct (evaluate_inv datum vm res He) as (mr & Hmr & Hcase).
  assert (Hshape :
    (low res = None /\ high res = None)
    \/ exists range,
         LimitEvaluator.findAlarmRange datum mr = Some range
         /\ low res
            = (if truthy_bound (minExclusive range) then minExclusive range
               else if truthy_bound (minInclusive range)
                    then minInclusive range else None)
         /\ high res
            = (if truthy_bound (maxExclusive range) then maxExclusive range
               else if truthy_bound (maxInclusive range)
                    then maxInclusive range else None)).
  { destruct Hcase as [H|(r0 & Hl0 & Hh0 & ->)]; [now left|].
    pose proof (addLimitRange_bounds datum mr r0) as Hb. cbv zeta in Hb.
    destruct (LimitEvaluator.findAlarmRange datum mr) as [range|].
    - right. exists range. rewrite Hl0, Hh0 in Hb. now split.
    - left. rewrite Hb. now split. }
  split; [|split].
  - intros s. destruct Hshape as [[-> _]|(range & _ & -> & _)];
      [discriminate | apply chosen_bound_not_zero].
  - intros s. destruct Hshape as [[_ ->]|(range & _ & _ & ->)];
      [discriminate | apply chosen_bound_not_zero].
  - intros mr' range Hmr' Hfind.
    assert (mr' = mr) by congruence. subst mr'.
    destruct Hshape as [[Hl Hh]|(range0 & Hfind' & Hl & Hh)]; [now split|].
    assert (range0 = range) by congruence. subst range0.
    split; intros Hi Hx.
    + now rewrite Hl, (truthy_bound_zero _ Hx), (truthy_bound_zero _ Hi).
    + now rewrite Hh, (truthy_bound_zero _ Hx), (truthy_bound_zero _ Hi).
Qed.

(** ** More on the limit evaluator *)

Lemma condition_miss (rc : string) :
  ~ In rc recognizedConditions -> obj_get rc RANGE_CONDITION_CSS = None.
Proof.
  intros Hn. unfold obj_get, RANGE_CONDITION_CSS. cbn [assoc].
  repeat match goal with
         | |- context [String.eqb ?a rc] =>
             destruct (String.eqb_spec a rc) as [<-|_];
             [exfalso; apply Hn; simpl; tauto|]
         end.
  reflexivity.
Qed.

(** A name that is neither a range condition nor inherited is not [in]
    the table of range conditions. *)
Lemma tableValue_condition_miss (rc : string) :
  ~ In rc recognizedConditions ->
  ~ In rc objectPrototypeNames ->
  tableValue rc RANGE_CONDITION_CSS = None.
Proof.
  intros Hn Hp. unfold tableValue.
  now rewrite (condition_miss rc Hn), (inheritedName_false rc Hp).
Qed.

Lemma condition_hit (rc : string) :
  In rc recognizedConditions ->
  exists rcss,
    obj_get rc RANGE_CONDITION_CSS = Some rcss
    /\ (if truthy_string rc then tableValue rc RANGE_CONDITION_CSS else None)
       = Some (OwnClass rcss).
Proof.
  intros Hin. simpl in Hin.
  destruct Hin as [<-|[<-|[]]]; eexists; split; reflexivity.
Qed.

Lemma level_matches_false (mr : string) (x : AlarmRange) :
  level x <> Some mr -> level_matches mr x = false.
Proof.
  unfold level_matches. destruct (level x) as [l|]; [|reflexivity].
  intros Hne. destruct (String.eqb_spec l mr); congruence.
Qed.

Lemma find_first_match (mr : string) (pre post : list AlarmRange)
  (r : AlarmRange) :
  level r = Some mr ->
  (forall x, In x pre -> level x <> Some mr) ->
  find (level_matches mr) (pre ++ r :: post)%list = Some r.
Proof.
  intros Hr Hpre. induction pre as [|x pre IH]; simpl.
  - unfold level_matches. now rewrite Hr, String.eqb_refl.
  - rewrite level_matches_false by (apply Hpre; now left).
    apply IH. intros y Hy. apply Hpre. now right.
Qed.

Lemma find_no_match (mr : string) (ranges : list AlarmRange) :
  (forall x, In x ranges -> level x <> Some mr) ->
  find (level_matches mr) ranges = None.
Proof.
  induction ranges as [|x l IH]; intros H; simpl; [reflexivity|].
  rewrite level_matches_false by (apply H; now left).
  apply IH. intros y Hy. apply H. now right.
Qed.

(** X16. Bounds are attached only when the range condition is [in] the
    table of range conditions. For a sample with a recognised severity
    whose range condition is absent, or is neither LOW nor HIGH nor a
    property name of [Object.prototype], the descriptor is the severity's
    style class and name with no low and no high, whatever the alarm
    ranges say. *)
Theorem evaluate_without_condition_has_no_bounds
  (datum : Datum) (vm : Json) (mr : string) :
  monitoringResult datum = Some mr ->
  In mr recognizedSeverities ->
  (forall rc, rangeCondition datum = Some rc ->
              ~ In rc recognizedConditions
              /\ ~ In rc objectPrototypeNames) ->
  exists css,
    obj_get mr MONITORING_RESULT_CSS = Some css
    /\ LimitEvaluator.evaluate datum vm
       = Some {| cssClass := css; name := mr; low := None; high := None |}.
Proof.
  intros Hmr Hin Hrc.
  destruct (evaluate_recognized datum vm mr Hmr Hin) as (css & Hcss & He).
  exists css. split; [exact Hcss|]. rewrite He. cbv zeta.
  destruct (rangeCondition datum) as [rc|]; [|reflexivity].
  destruct (Hrc rc eq_refl) as [Hn Hp].
  rewrite (tableValue_condition_miss rc Hn Hp).
  now destruct (truthy_string rc).
Qed.

(** X17. Among several alarm-range entries of the sample's severity the
    first one decides: the descriptor's bounds are read from the first
    entry whose level equals the monitoring result, entries after it are
    not looked at. *)
Theorem evaluate_uses_first_matching_range
  (datum : Datum) (vm : Json) (mr rc : string)
  (pre post : list AlarmRange) (r : AlarmRange) :
  monitoringResult datum = Some mr ->
  In mr recognizedSeverities ->
  rangeCondition datum = Some rc ->
  In rc recognizedConditions ->
  alarmRange datum = Some (pre ++ r :: post)%list ->
  level r = Some mr ->
  (forall x, In x pre -> level x <> Some mr) ->
  exists res,
    LimitEvaluator.evaluate datum vm = Some res
    /\ name res = mr
    /\ low res
       = (if truthy_bound (minExclusive r) then minExclusive r
          else if truthy_bound (minInclusive r) then minInclusive r
               else None)
    /\ high res
       = (if truthy_bound (maxExclusive r) then maxExclusive r
          else if truthy_bound (maxInclusive r) then maxInclusive r
               else None).
Proof.
  intros Hmr Hin Hrc Hinrc Har Hr Hpre.
  assert (Hfind : LimitEvaluator.findAlarmRange datum mr = Some r).
  { unfold LimitEvaluator.findAlarmRange. rewrite Har.
    now apply find_first_match. }
  destruct (evaluate_recognized datum vm mr Hmr Hin) as (css & _ & He).
  rewrite He, Hrc. cbv zeta.
  destruct (condition_hit rc Hinrc) as (rcss & _ & ->).
  eexists. split; [reflexivity|].
  pose proof (addLimitRange_bounds datum mr
                (set_cssClass (css ++ " " ++ rcss)
                   {| cssClass := css; name := mr;
                      low := None; high := None |})) as Hb.
  cbv zeta in Hb. rewrite Hfind in Hb. split; [|exact Hb].
  unfold LimitEvaluator.addLimitRange. rewrite Hfind. cbv zeta.
  unfold LimitEvaluator.assign_if_truthy.
  destruct (minInclusive r) as [a|]; [destruct (truthy_number a)|];
    (destruct (minExclusive r) as [b|]; [destruct (truthy_number b)|]);
    (destruct (maxInclusive r) as [c|]; [destruct (truthy_number c)|]);
    (destruct (maxExclusive r) as [d|]; [destruct (truthy_number d)|]);
    reflexivity.
Qed.

(** X18. When the sample has no alarm ranges, or none of its entries has
    the level of the monitoring result, a recognised severity under a
    recognised range condition still yields a descriptor: its style class
    joins the two tokens with a space, and it carries no bounds. *)
Theorem evaluate_without_matching_range
  (datum : Datum) (vm : Json) (mr rc : string) :
  monitoringResult datum = Some mr ->
  In mr recognizedSeverities ->
  rangeCondition datum = Some rc ->
  In rc recognizedConditions ->
  (forall ranges x,
      alarmRange datum = Some ranges -> In x ranges -> level x <> Some mr) ->
  exists css rcss,
    obj_get mr MONITORING_RESULT_CSS = Some css
    /\ obj_get rc RANGE_CONDITION_CSS = Some rcss
    /\ LimitEvaluator.evaluate datum vm
       = Some {| cssClass := css ++ " " ++ rcss; name := mr;
                 low := None; high := None |}.
Proof.
  intros Hmr Hin Hrc Hinrc Hno.
  assert (Hfind : LimitEvaluator.findAlarmRange datum mr = None).
  { unfold LimitEvaluator.findAlarmRange.
    destruct (alarmRange datum) as [ranges|]; [|reflexivity].
    apply find_no_match. intros x Hx. now apply (Hno ranges). }
  destruct (evaluate_recognized datum vm mr Hmr Hin) as (css & Hcss & He).
  destruct (condition_hit rc Hinrc) as (rcss & Hrcss & Htv).
  exists css, rcss. split; [exact Hcss|]. split; [exact Hrcss|].
  rewrite He, Hrc. cbv zeta. rewrite Htv.
  unfold LimitEvaluator.addLimitRange. now rewrite Hfind.
Qed.

(** X19. The evaluator looks at nothing but the three limit fields: two
    samples that agree on monitoring result, range condition and alarm
    ranges get the same answer, whatever their identifier, timestamp and
    value are and whatever metadata is passed. In particular the value
    itself is never compared with the bounds. *)
Theorem evaluate_reads_limit_fields_only
  (d1 d2 : Datum) (vm1 vm2 : Json) :
  monitoringResult d1 = monitoringResult d2 ->
  rangeCondition d1 = rangeCondition d2 ->
  alarmRange d1 = alarmRange d2 ->
  LimitEvaluator.evaluate d1 vm1 = LimitEvaluator.evaluate d2 vm2.
Proof.
  intros Hmr Hrc Har.
  unfold LimitEvaluator.evaluate, LimitEvaluator.addLimitRange,
    LimitEvaluator.findAlarmRange.
  now rewrite Hmr, Hrc, Har.
Qed.

(** ** The supported types *)

Lemma addSupportedTypes_get (types : list string) :
  forall (o : JsObject string) (k : string),
    obj_get k (addSupportedTypes types o)
    = if negb (k =? "__proto__") && existsb (String.eqb k) types
      then Some k else obj_get k o.
Proof.
  unfold addSupportedTypes.
  induction types as [|t types IH]; intros o k; simpl.
  - now rewrite andb_false_r.
  - rewrite IH.
    destruct (String.eqb_spec k "__proto__") as [->|Hk]; simpl.
    + destruct (String.eqb_spec t "__proto__") as [->|Ht]; [reflexivity|].
      apply obj_get_set_other. congruence.
    + destruct (existsb (String.eqb k) types).
      * now rewrite orb_true_r.
      * rewrite orb_false_r. destruct (String.eqb_spec k t) as [->|Hne].
        -- destruct (String.eqb_spec t "__proto__"); [contradiction|].
           apply obj_get_set.
        -- destruct (t =? "__proto__"); [reflexivity|].
           now apply obj_get_set_other.
Qed.

Lemma existsb_eqb_in (k : string) (l : list string) :
  existsb (String.eqb k) l = true <-> In k l.
Proof.
  rewrite existsb_exists. split.
  - intros (x & Hx & Heq). apply String.eqb_eq in Heq. now subst x.
  - intros Hin. exists k. split; [exact Hin | apply String.eqb_refl].
Qed.

(** X20. After the constructor has entered the values of [OBJECT_TYPES],
    [supportsSubscribe] answers with the type of the domain object when
    that type is one of the values (and is not [__proto__], which is
    never entered), with [undefined] when the type is neither one of the
    values nor a property name of [Object.prototype], and with the member
    of [Object.prototype], a truthy value, for a type that is such a name
    and was not entered. *)
Theorem supportsSubscribe_listed_types
  (types : list string) (domainObject : DomainObject) :
  (In (type domainObject) types ->
   type domainObject <> "__proto__" ->
   supportsSubscribe (addSupportedTypes types []) domainObject
   = OwnValue (type domainObject))
  /\ (~ In (type domainObject) types ->
      ~ In (type domainObject) objectPrototypeNames ->
      supportsSubscribe (addSupportedTypes types []) domainObject = NoMember)
  /\ (~ In (type domainObject) types \/ type domainObject = "__proto__" ->
      In (type domainObject) objectPrototypeNames ->
      supportsSubscribe (addSupportedTypes types []) domainObject
      = InheritedMember (type domainObject)).
Proof.
  unfold supportsSubscribe, obj_read. rewrite addSupportedTypes_get.
  split; [|split].
  - intros Hin Hne. apply existsb_eqb_in in Hin. rewrite Hin.
    now destruct (String.eqb_spec (type domainObject) "__proto__").
  - intros Hn Hp.
    destruct (existsb (String.eqb (type domainObject)) types) eqn:E;
      [apply existsb_eqb_in in E; contradiction|].
    rewrite andb_false_r. cbn [obj_get assoc].
    now rewrite (inheritedName_false _ Hp).
  - intros Hcase Hp.
    assert (Hmiss : negb (type domainObject =? "__proto__")
                    && existsb (String.eqb (type domainObject)) types
                    = false).
    { destruct Hcase as [Hn|Heq].
      - destruct (existsb (String.eqb (type domainObject)) types) eqn:E;
          [apply existsb_eqb_in in E; contradiction|].
        apply andb_false_r.
      - rewrite Heq. reflexivity. }
    rewrite Hmiss. cbn [obj_get assoc].
    apply existsb_eqb_in in Hp. unfold inheritedName. now rewrite Hp.
Qed.


(** ** Closed examples on the sample instance *)

Notation "'sampleRun'" :=
  (run (Callback:=nat) SAMPLE_EVENTS_OBJECT_TYPE sampleIdToQualifiedName
     sampleQualifiedNameToId sampleGetValue sampleAddLimitInformation)
  (only parsing).

Notation "'sampleWorld'" :=
  (constructor (Callback:=nat) "ws://yamcs/" "simulator") (only parsing).

(** A string literal is not in a list of string literals. *)
Ltac not_listed :=
  let H := fresh "H" in
  intros H; simpl in H;
  repeat (destruct H as [H|H]; [discriminate H|]); exact H.

(** A registration made before any connection exists. *)
Notation "'registeredOffline'" :=
  (sampleRun neverFails [CallSubscribe channelA 7%nat] sampleWorld)
  (only parsing).

(** C1, counterexample. Channel [~sim~A] is registered while the provider
    is disconnected: the entry is in the registry, yet the Outbound
    Request Queue is empty and nothing was sent. *)
Lemma subscribe_offline_neither_sent_nor_queued :
  connected (this sampleWorld) = false
  /\ obj_get "~sim~A" (listener (this registeredOffline)) = Some 7%nat
  /\ requests (this registeredOffline) = []
  /\ wire (host registeredOffline) = []
  /\ ~ In (tlmSubscribeRequest (sampleIdToQualifiedName "~sim~A"))
          (requests (this registeredOffline)).
Proof.
  repeat split. intros H. exact H.
Qed.

(** C1, the amended statement at the freshly constructed provider. *)
Lemma subscribe_while_disconnected_witness :
  connected (this sampleWorld) = false
  /\ exists h w',
       subscribe SAMPLE_EVENTS_OBJECT_TYPE sampleIdToQualifiedName neverFails
         channelA 7%nat sampleWorld = Normal h w'
       /\ requests (this w') = []
       /\ host w' = host sampleWorld
       /\ In "~sim~A" (obj_keys (listener (this w'))).
Proof.
  split; [reflexivity|].
  destruct (subscribe_while_disconnected SAMPLE_EVENTS_OBJECT_TYPE
              sampleIdToQualifiedName neverFails channelA 7%nat sampleWorld
              eq_refl ltac:(discriminate) eq_refl)
    as (h & w' & He & Hq & Hh & _ & _ & Hk).
  exists h, w'. split; [exact He|]. split; [exact Hq|].
  split; [exact Hh | exact Hk].
Defined.

(** Three unsubscribe requests queued while disconnected (the handle of
    channel A is invoked twice), then a socket is created. *)
Notation "'threeQueued'" :=
  (sampleRun (failsOnlyAt 1)
     [CallSubscribe channelA 7%nat;
      CallSubscribe eventChannel 8%nat;
      CallUnsubscribe (TelemetryHandle "~sim~A");
      CallUnsubscribe (EventHandle SAMPLE_EVENTS_OBJECT_TYPE);
      CallUnsubscribe (TelemetryHandle "~sim~A");
      CallConnect]
     sampleWorld)
  (only parsing).

(** C2, counterexample. The queue holds three requests and only the second
    send throws. The drain run by the open handler goes on after the
    failure: the third request is attempted and sent (it is on the wire
    with sequence number 3), and only the failed request stays queued. *)
Lemma drain_goes_on_after_failure :
  requests (this threeQueued)
  = [tlmUnsubscribeRequest None; eventUnsubscribeRequest;
     tlmUnsubscribeRequest None]
  /\ requests (this (sampleRun (failsOnlyAt 1) [SocketOpen] threeQueued))
     = [eventUnsubscribeRequest]
  /\ wire (host (sampleRun (failsOnlyAt 1) [SocketOpen] threeQueued))
     = [frame 1 (tlmUnsubscribeRequest None);
        frame 3 (tlmUnsubscribeRequest None)]
  /\ attempts (host (sampleRun (failsOnlyAt 1) [SocketOpen] threeQueued))
     = 3%nat.
Proof. vm_compute. repeat split. Qed.

(** C2, the amended statement on that queue, the second send failing: no
    timer handle was held, and the drain leaves one reconnect timer
    pending, with the first delay of the schedule. *)
Lemma flushQueue_effect_witness :
  socket (this threeQueued) <> None
  /\ reconnectTimeout (this threeQueued) = None
  /\ timeouts (host threeQueued) = []
  /\ exists w',
       flushQueue (failsOnlyAt 1) threeQueued = Normal tt w'
       /\ requests (this w') = [eventUnsubscribeRequest]
       /\ connected (this w') = false
       /\ reconnectTimeout (this w') = Some 1%positive
       /\ timeouts (host w') = [(1%positive, Milliseconds 1000)]
       /\ currentWaitIndex (this w') = 1%nat.
Proof.
  assert (Hs : socket (this threeQueued) <> None)
    by (vm_compute; discriminate).
  split; [exact Hs|]. split; [reflexivity|]. split; [reflexivity|].
  destruct (flushQueue_effect (failsOnlyAt 1) threeQueued Hs)
    as (w' & He & Hq & _ & _ & Hany).
  exists w'. split; [exact He|]. split; [exact Hq|].
  exact Hany.
Defined.



(** C5, counterexample. Channel A is registered on an open connection and
    its handle is invoked twice: two unsubscribe messages (sequence
    numbers 2 and 3) are put on the wire for the one registration. *)
Lemma unsubscribe_twice_sends_twice :
  wire
    (host (sampleRun neverFails
             [CallConnect; SocketOpen; CallSubscribe channelA 7%nat;
              CallUnsubscribe (TelemetryHandle "~sim~A");
              CallUnsubscribe (TelemetryHandle "~sim~A")]
             sampleWorld))
  = [frame 1 (tlmSubscribeRequest "/sim/A");
     frame 2 (tlmUnsubscribeRequest None);
     frame 3 (tlmUnsubscribeRequest None)].
Proof. vm_compute. reflexivity. Qed.

(** C5, the amended statement at a connected provider, where the
    unsubscribe message goes on the wire, and at a provider that is not
    connected, where it is queued. *)
Lemma unsubscribe_effect_witness :
  (exists w1,
      unsubscribe neverFails (TelemetryHandle "~sim~A")
        (sampleRun neverFails
           [CallConnect; SocketOpen; CallSubscribe channelA 7%nat]
           sampleWorld) = Normal tt w1
      /\ wire (host w1)
         = [ "[1, 1, 1, " ++ spec_parameterSubscribe "/sim/A" ++ "]";
             "[1, 1, 2, {" ++ dq ++ "parameter" ++ dq ++ ": " ++ dq
             ++ "unsubscribe" ++ dq ++ "," ++ nl ++ "                     "
             ++ dq ++ "data" ++ dq ++ ": { " ++ dq ++ "id" ++ dq ++ ": [{ "
             ++ dq ++ "name" ++ dq ++ ": " ++ dq ++ "undefined" ++ dq
             ++ " }] }}]" ]
      /\ requests (this w1) = []
      /\ obj_get "~sim~A" (listener (this w1)) = None)
  /\ (exists w1,
         unsubscribe neverFails (TelemetryHandle "~sim~A") registeredOffline
         = Normal tt w1
         /\ wire (host w1) = []
         /\ requests (this w1) = [tlmUnsubscribeRequest None]).
Proof.
  split.
  - destruct (unsubscribe_effect neverFails (TelemetryHandle "~sim~A")
                (sampleRun neverFails
                   [CallConnect; SocketOpen; CallSubscribe channelA 7%nat]
                   sampleWorld))
      as (w1 & _ & He & _ & Hsent & _ & Hgone & _).
    destruct Hsent as [Hw Hq];
      [reflexivity | vm_compute; discriminate | reflexivity|].
    exists w1. split; [exact He|]. split; [exact Hw|]. split; [exact Hq|].
    apply Hgone. discriminate.
  - destruct (unsubscribe_effect neverFails (TelemetryHandle "~sim~A")
                registeredOffline)
      as (w1 & _ & He & _ & _ & Hqueued & _).
    destruct Hqueued as [Hw Hq]; [left; reflexivity|].
    exists w1. split; [exact He|]. split; [exact Hw | exact Hq].
Defined.

(** Channels registered and unregistered on an open connection, which is
    then lost; the reconnect timer has fired and a new socket is
    connecting. *)
Notation "'reconnecting'" :=
  (sampleRun neverFails
     [CallConnect; SocketOpen;
      CallSubscribe channelA 7%nat; CallSubscribe eventChannel 8%nat;
      CallSubscribe (sampleObject "~sim~B") 9%nat;
      CallUnsubscribe (TelemetryHandle "~sim~B");
      SocketClose; ReconnectTimer 2]
     sampleWorld)
  (only parsing).


(** C7, counterexample. The matching alarm-range entry carries both an
    inclusive maximum (5) and an exclusive maximum (0): the exclusive
    value does not overwrite the inclusive one, the descriptor's high is
    5. *)
Lemma zero_exclusive_does_not_overwrite :
  exists res,
    LimitEvaluator.evaluate
      (sampleDatum (Some "CRITICAL") (Some "HIGH")
         (Some [sampleRange "CRITICAL" None None
                  (Some (number_of_Z 5)) (Some (number_of_Z 0))]))
      JUndefined = Some res
    /\ high res = Some (number_of_Z 5)
    /\ high res <> Some (number_of_Z 0).
Proof.
  eexists. split; [reflexivity|]. split; [reflexivity|]. discriminate.
Qed.

(** C7, the amended statement at four samples: no monitoring result, an
    unrecognised one, the sample of the specification, and an entry with
    both minimum bounds truthy. *)
Lemma evaluate_amended_witness :
  LimitEvaluator.evaluate (sampleDatum None (Some "HIGH") None) JUndefined = None
  /\ LimitEvaluator.evaluate
       (sampleDatum (Some "IN_LIMITS") None None) JUndefined = None
  /\ LimitEvaluator.evaluate
       (sampleDatum (Some "CRITICAL") (Some "HIGH")
          (Some [sampleRange "CRITICAL" None None (Some (number_of_Z 42)) None]))
       JUndefined
     = Some {| cssClass := "is-limit--red is-limit--upr";
               name := "CRITICAL"; low := None;
               high := Some (number_of_Z 42) |}
  /\ exists res,
       LimitEvaluator.evaluate
         (sampleDatum (Some "WATCH") (Some "LOW")
            (Some [sampleRange "WATCH" (Some (number_of_Z 3))
                     (Some (number_of_Z 2)) None None]))
         JUndefined = Some res
       /\ low res = Some (number_of_Z 2).
Proof.
  destruct evaluate_amended as (Hnone & Hunknown & Hsample & Hboth).
  split; [apply Hnone; reflexivity|].
  split.
  { apply (Hunknown _ _ "IN_LIMITS"); [reflexivity| |]; not_listed. }
  split; [apply Hsample; reflexivity|].
  destruct (Hboth (sampleDatum (Some "WATCH") (Some "LOW")
                     (Some [sampleRange "WATCH" (Some (number_of_Z 3))
                              (Some (number_of_Z 2)) None None]))
              JUndefined "WATCH" "LOW"
              (sampleRange "WATCH" (Some (number_of_Z 3)) (Some (number_of_Z 2))
                 None None))
    as (res & He & Hl & _).
  - reflexivity.
  - simpl. auto.
  - reflexivity.
  - simpl. auto.
  - reflexivity.
  - exists res. split; [exact He | exact Hl].
Defined.

(** C10 at an entry whose inclusive bounds are both 0. *)
Lemma zero_bounds_omitted_witness :
  LimitEvaluator.evaluate
    (sampleDatum (Some "CRITICAL") (Some "HIGH")
       (Some [sampleRange "CRITICAL" (Some (number_of_Z 0)) None
                (Some (number_of_Z 0)) None]))
    JUndefined
  = Some {| cssClass := "is-limit--red is-limit--upr"; name := "CRITICAL";
            low := None; high := None |}
  /\ high {| cssClass := "is-limit--red is-limit--upr"; name := "CRITICAL";
             low := None; high := None |} = None.
Proof.
  split; [reflexivity|].
  destruct (zero_bounds_omitted
              (sampleDatum (Some "CRITICAL") (Some "HIGH")
                 (Some [sampleRange "CRITICAL" (Some (number_of_Z 0)) None
                          (Some (number_of_Z 0)) None]))
              JUndefined
              {| cssClass := "is-limit--red is-limit--upr";
                 name := "CRITICAL"; low := None; high := None |}
              eq_refl) as (_ & _ & H).
  destruct (H "CRITICAL"
              (sampleRange "CRITICAL" (Some (number_of_Z 0)) None
                 (Some (number_of_Z 0)) None) eq_refl eq_refl) as [_ Hh].
  apply Hh.
  - right. exists false. reflexivity.
  - left. reflexivity.
Defined.




(** After two failed attempts the next delay would be 5000 ms; a successful
    open in between puts the retry index back to zero, and the failure
    that follows is retried after 1000 ms. *)
Example delay_after_successful_open :
  scheduledDelay
    (sampleRun neverFails
       [CallConnect; SocketError; SocketClose; ReconnectTimer 1;
        SocketError; SocketClose; ReconnectTimer 2]
       sampleWorld) = None
  /\ currentWaitIndex
       (this (sampleRun neverFails
                [CallConnect; SocketError; SocketClose; ReconnectTimer 1;
                 SocketError; SocketClose; ReconnectTimer 2]
                sampleWorld)) = 2%nat
  /\ currentWaitIndex
       (this (sampleRun neverFails
                [CallConnect; SocketError; SocketClose; ReconnectTimer 1;
                 SocketError; SocketClose; ReconnectTimer 2; SocketOpen]
                sampleWorld)) = 0%nat
  /\ scheduledDelay
       (sampleRun neverFails
          [CallConnect; SocketError; SocketClose; ReconnectTimer 1;
           SocketError; SocketClose; ReconnectTimer 2; SocketOpen;
           SocketClose]
          sampleWorld) = Some (Milliseconds 1000).
Proof. vm_compute. repeat split. Qed.

(** The scenario of the specification's end-to-end test, as the code runs
    it: one PARAMETER update for channel A reaches the callback registered
    for it, once. *)
Example parameter_update_is_delivered :
  calls
    (host (sampleRun neverFails
             [CallSubscribe channelA 7%nat; CallConnect; SocketOpen;
              SocketMessage
                (sampleFrame
                   (JObj [("dt", JStr "PARAMETER");
                          ("data",
                           JObj [("parameter",
                                  JArr [sampleUpdate "/sim/A"])])]))]
             sampleWorld))
  = [(7%nat,
      DeliverPoint
        {| id := "~sim~A"; timestamp := JStr "2020-01-01T00:00:00Z";
           value := JNum (number_of_Z 7); monitoringResult := None;
           rangeCondition := None; alarmRange := None |})].
Proof. vm_compute. reflexivity. Qed.

(** A callback registered under [__proto__] becomes the prototype of the
    registry: it is no key of it, so that the sweep of an open walks
    nothing; an update for that name is delivered to it; and invoking the
    handle of the registration leaves it in place. *)
Example registration_under_proto :
  obj_keys
    (listener
       (this (sampleRun neverFails
                [CallSubscribe (sampleObject "__proto__") 7%nat]
                sampleWorld))) = []
  /\ wire
       (host (sampleRun neverFails
                [CallSubscribe (sampleObject "__proto__") 7%nat;
                 CallConnect; SocketOpen]
                sampleWorld)) = []
  /\ map fst
       (calls
          (host (sampleRun neverFails
                   [CallSubscribe (sampleObject "__proto__") 7%nat;
                    SocketMessage
                      (sampleFrame
                         (JObj [("dt", JStr "PARAMETER");
                                ("data",
                                 JObj [("parameter",
                                        JArr [sampleUpdate "__proto__"])])]))]
                   sampleWorld))) = [7%nat]
  /\ listener
       (this (sampleRun neverFails
                [CallSubscribe (sampleObject "__proto__") 7%nat;
                 CallUnsubscribe (TelemetryHandle "__proto__")]
                sampleWorld))
     = listener
         (this (sampleRun neverFails
                  [CallSubscribe (sampleObject "__proto__") 7%nat]
                  sampleWorld)).
Proof. vm_compute. repeat split. Qed.

(** A monitoring result that is a property name of [Object.prototype] is
    [in] the table of monitoring results: the evaluator returns a
    descriptor whose style class is the inherited member. *)
Example inherited_monitoring_result :
  LimitEvaluator.evaluate (sampleDatum (Some "toString") None None)
    JUndefined
  = Some {| cssClass := ClassMember "toString"; name := "toString";
            low := None; high := None |}.
Proof. reflexivity. Qed.

(** ** The further statements on the sample instance *)

(** X1 at a connected provider: the registration of channel A is issued
    at once. *)
Lemma subscribe_always_registers_witness :
  exists h w',
    subscribe SAMPLE_EVENTS_OBJECT_TYPE sampleIdToQualifiedName neverFails
      channelA 7%nat
      (sampleRun neverFails [CallConnect; SocketOpen] sampleWorld)
    = Normal h w'
    /\ h = TelemetryHandle "~sim~A"
    /\ obj_get "~sim~A" (listener (this w')) = Some 7%nat
    /\ issued w' = 1%nat.
Proof.
  destruct (subscribe_always_registers SAMPLE_EVENTS_OBJECT_TYPE
              sampleIdToQualifiedName neverFails channelA 7%nat
              (sampleRun neverFails [CallConnect; SocketOpen] sampleWorld)
              ltac:(discriminate) eq_refl)
    as (h & w' & He & Hid & Hkind & Hg & _ & _ & _ & Hi).
  exists h, w'. split; [exact He|]. split; [|split; [exact Hg | exact Hi]].
  destruct h as [i|i]; simpl in Hid; subst i; [reflexivity|].
  exfalso. assert (Heq : "~sim~A" = SAMPLE_EVENTS_OBJECT_TYPE)
    by (apply Hkind; reflexivity).
  discriminate Heq.
Defined.

(** X2 at the freshly constructed provider. *)
Lemma subscribe_then_unsubscribe_restores_registry_witness :
  obj_has "~sim~A" (listener (this sampleWorld)) = false
  /\ exists h w1 w2,
       subscribe SAMPLE_EVENTS_OBJECT_TYPE sampleIdToQualifiedName neverFails
         channelA 7%nat sampleWorld = Normal h w1
       /\ unsubscribe neverFails h w1 = Normal tt w2
       /\ listener (this w2) = [].
Proof.
  split; [reflexivity|].
  exact (subscribe_then_unsubscribe_restores_registry
           SAMPLE_EVENTS_OBJECT_TYPE sampleIdToQualifiedName neverFails
           channelA 7%nat sampleWorld ltac:(discriminate) eq_refl eq_refl).
Defined.

(** X3 at the freshly constructed provider, channel A registered twice. *)
Lemma stale_handle_removes_newer_callback_witness :
  exists h1 w1 h2 w2 w3,
    subscribe SAMPLE_EVENTS_OBJECT_TYPE sampleIdToQualifiedName neverFails
      channelA 7%nat sampleWorld = Normal h1 w1
    /\ subscribe SAMPLE_EVENTS_OBJECT_TYPE sampleIdToQualifiedName
         neverFails channelA 9%nat w1 = Normal h2 w2
    /\ obj_get "~sim~A" (listener (this w2)) = Some 9%nat
    /\ unsubscribe neverFails h1 w2 = Normal tt w3
    /\ obj_get "~sim~A" (listener (this w3)) = None.
Proof.
  destruct (stale_handle_removes_newer_callback SAMPLE_EVENTS_OBJECT_TYPE
              sampleIdToQualifiedName neverFails channelA 7%nat 9%nat
              sampleWorld ltac:(discriminate) eq_refl)
    as (h1 & w1 & h2 & w2 & w3 & H1 & H2 & _ & Hg & Hu & Hn & _).
  exists h1, w1, h2, w2, w3. auto.
Defined.

(** X5 on a frame whose first update has no [id]: nothing is delivered,
    not even the update for the registered channel A that follows. *)
Lemma malformed_update_aborts_frame_witness :
  buildPoint sampleQualifiedNameToId sampleGetValue sampleAddLimitInformation
    (JObj [("engValue", JNum (number_of_Z 7))]) = inl TypeError
  /\ onmessage SAMPLE_EVENTS_OBJECT_TYPE sampleQualifiedNameToId
       sampleGetValue sampleAddLimitInformation
       (sampleFrame
          (JObj [("dt", JStr "PARAMETER");
                 ("data",
                  JObj [("parameter",
                         JArr [JObj [("engValue", JNum (number_of_Z 7))];
                               sampleUpdate "/sim/A"])])]))
       registeredOffline
     = Throw TypeError registeredOffline.
Proof.
  split; [reflexivity|].
  eapply (malformed_update_aborts_frame SAMPLE_EVENTS_OBJECT_TYPE
            sampleQualifiedNameToId sampleGetValue
            sampleAddLimitInformation);
    [simpl; lia | reflexivity | reflexivity | reflexivity | reflexivity].
Defined.

(** A socket fails, its reconnect timer fires and opens a second socket,
    and only then the close of the first socket arrives: a second timer
    is pending while the second socket is connecting. *)
Notation "'lateClose'" :=
  (sampleRun neverFails
     [CallConnect; SocketError; ReconnectTimer 1; SocketClose] sampleWorld)
  (only parsing).

(** X9 at that state: the second socket opens and later closes, and no
    reconnect is pending. *)
Lemma open_with_pending_timer_blocks_reconnect_witness :
  reconnectTimeout (this lateClose) = Some 2%positive
  /\ timeouts (host lateClose) = [(2%positive, Milliseconds 5000)]
  /\ connected
       (this (stateOf
                (onclose (stateOf
                   (onopen SAMPLE_EVENTS_OBJECT_TYPE sampleIdToQualifiedName
                      neverFails lateClose))))) = false
  /\ timeouts
       (host (stateOf
                (onclose (stateOf
                   (onopen SAMPLE_EVENTS_OBJECT_TYPE sampleIdToQualifiedName
                      neverFails lateClose))))) = [].
Proof.
  assert (Ht : reconnectTimeout (this lateClose) = Some 2%positive)
    by reflexivity.
  assert (Hone : oneTimer lateClose).
  { split; [vm_compute; lia|].
    vm_compute. intros e [<-|[]]. reflexivity. }
  split; [exact Ht|]. split; [reflexivity|].
  destruct (open_with_pending_timer_blocks_reconnect
              SAMPLE_EVENTS_OBJECT_TYPE sampleIdToQualifiedName neverFails
              2%positive lateClose Ht Hone) as (_ & _ & Hc & Hto & _).
  split; [exact Hc | exact Hto].
Defined.


(** X11 on the queue of three, the second send failing: the sequence
    number ends at 3. *)
Lemma sequence_number_counts_attempts_witness :
  socket (this threeQueued) <> None
  /\ exists w',
       flushQueue (failsOnlyAt 1) threeQueued = Normal tt w'
       /\ seqNo (this w') = 3%Z.
Proof.
  assert (Hs : socket (this threeQueued) <> None)
    by (vm_compute; discriminate).
  split; [exact Hs|].
  exact (proj2 (sequence_number_counts_attempts (failsOnlyAt 1) threeQueued)
           Hs).
Defined.

(** Two channels registered, and a socket created. *)
Notation "'twoRegistered'" :=
  (sampleRun neverFails
     [CallSubscribe channelA 7%nat; CallSubscribe eventChannel 8%nat;
      CallConnect]
     sampleWorld)
  (only parsing).

(** X12 with two channels registered and an empty queue. *)
Lemma onopen_success_witness :
  socket (this twoRegistered) <> None
  /\ exists w',
       onopen SAMPLE_EVENTS_OBJECT_TYPE sampleIdToQualifiedName neverFails
         twoRegistered = Normal tt w'
       /\ connected (this w') = true
       /\ currentWaitIndex (this w') = 0%nat
       /\ requests (this w') = []
       /\ wire (host w')
          = [frame 1 (tlmSubscribeRequest "/sim/A");
             frame 2 eventSubscribeRequest].
Proof.
  assert (Hs : socket (this twoRegistered) <> None)
    by (vm_compute; discriminate).
  split; [exact Hs|].
  destruct (onopen_success SAMPLE_EVENTS_OBJECT_TYPE sampleIdToQualifiedName
              neverFails twoRegistered Hs (fun i _ => eq_refl))
    as (w' & He & Hc & Hi & Hq & _ & Hw).
  exists w'. split; [exact He|]. split; [exact Hc|]. split; [exact Hi|].
  split; [exact Hq | exact Hw].
Defined.

(** X13 on the queue of three, the second send failing: three messages
    before, three after. *)
Lemma onopen_conserves_messages_witness :
  socket (this threeQueued) <> None
  /\ issued threeQueued = 3%nat
  /\ exists w',
       onopen SAMPLE_EVENTS_OBJECT_TYPE sampleIdToQualifiedName
         (failsOnlyAt 1) threeQueued = Normal tt w'
       /\ issued w' = 3%nat.
Proof.
  assert (Hs : socket (this threeQueued) <> None)
    by (vm_compute; discriminate).
  split; [exact Hs|]. split; [reflexivity|].
  destruct (onopen_conserves_messages SAMPLE_EVENTS_OBJECT_TYPE
              sampleIdToQualifiedName (failsOnlyAt 1) threeQueued Hs)
    as (w' & He & Hi & _).
  exists w'. split; [exact He | exact Hi].
Defined.

(** X15 at the freshly constructed provider. *)
Lemma connect_opens_a_socket_unless_connected_witness :
  connected (this sampleWorld) = false
  /\ exists w1 w2,
       connect sampleWorld = Normal tt w1
       /\ connect w1 = Normal tt w2
       /\ List.length (sockets (host w2)) = 2%nat.
Proof.
  split; [reflexivity|].
  destruct (proj2 (connect_opens_a_socket_unless_connected sampleWorld)
              eq_refl)
    as (w1 & w2 & H1 & H2 & _ & _ & _ & _ & Hlen & _).
  exists w1, w2. split; [exact H1|]. split; [exact H2 | exact Hlen].
Defined.

(** X16 at a WATCH sample without range condition whose alarm range has
    bounds. *)
Lemma evaluate_without_condition_has_no_bounds_witness :
  exists css,
    obj_get "WATCH" MONITORING_RESULT_CSS = Some css
    /\ LimitEvaluator.evaluate
         (sampleDatum (Some "WATCH") None
            (Some [sampleRange "WATCH" (Some (number_of_Z 1)) None
                     (Some (number_of_Z 9)) None]))
         JUndefined
       = Some {| cssClass := css; name := "WATCH";
                 low := None; high := None |}.
Proof.
  apply evaluate_without_condition_has_no_bounds.
  - reflexivity.
  - simpl. auto.
  - intros rc H. discriminate H.
Defined.

(** X17 at a sample with two CRITICAL entries after a WATCH entry. *)
Lemma evaluate_uses_first_matching_range_witness :
  exists res,
    LimitEvaluator.evaluate
      (sampleDatum (Some "CRITICAL") (Some "HIGH")
         (Some [sampleRange "WATCH" None None (Some (number_of_Z 5)) None;
                sampleRange "CRITICAL" None None (Some (number_of_Z 8)) None;
                sampleRange "CRITICAL" None None (Some (number_of_Z 9))
                  None]))
      JUndefined = Some res
    /\ high res = Some (number_of_Z 8).
Proof.
  destruct (evaluate_uses_first_matching_range
              (sampleDatum (Some "CRITICAL") (Some "HIGH")
                 (Some [sampleRange "WATCH" None None
                          (Some (number_of_Z 5)) None;
                        sampleRange "CRITICAL" None None
                          (Some (number_of_Z 8)) None;
                        sampleRange "CRITICAL" None None
                          (Some (number_of_Z 9)) None]))
              JUndefined "CRITICAL" "HIGH"
              [sampleRange "WATCH" None None (Some (number_of_Z 5)) None]
              [sampleRange "CRITICAL" None None (Some (number_of_Z 9)) None]
              (sampleRange "CRITICAL" None None (Some (number_of_Z 8)) None))
    as (res & He & _ & _ & Hh).
  - reflexivity.
  - simpl. auto.
  - reflexivity.
  - simpl. auto.
  - reflexivity.
  - reflexivity.
  - intros x [<-|[]]. discriminate.
  - exists res. split; [exact He | exact Hh].
Defined.

(** X18 at a DISTRESS/LOW sample without alarm ranges. *)
Lemma evaluate_without_matching_range_witness :
  LimitEvaluator.evaluate (sampleDatum (Some "DISTRESS") (Some "LOW") None)
    JUndefined
  = Some {| cssClass := "is-limit--red is-limit--lwr"; name := "DISTRESS";
            low := None; high := None |}.
Proof.
  destruct (evaluate_without_matching_range
              (sampleDatum (Some "DISTRESS") (Some "LOW") None) JUndefined
              "DISTRESS" "LOW")
    as (css & rcss & Hcss & Hrcss & He).
  - reflexivity.
  - simpl. auto.
  - reflexivity.
  - simpl. auto.
  - intros ranges x H. discriminate H.
  - rewrite He. injection Hcss as <-. injection Hrcss as <-. reflexivity.
Defined.

(** X19 at two samples that differ in identifier, value and metadata. *)
Lemma evaluate_reads_limit_fields_only_witness :
  LimitEvaluator.evaluate
    {| id := "~sim~A"; timestamp := JNull; value := JNum (number_of_Z 1);
       monitoringResult := Some "WARNING"; rangeCondition := Some "LOW";
       alarmRange := None |} JUndefined
  = LimitEvaluator.evaluate
      {| id := "~sim~B"; timestamp := JStr "later";
         value := JNum (number_of_Z 1000);
         monitoringResult := Some "WARNING"; rangeCondition := Some "LOW";
         alarmRange := None |} (JStr "metadata").
Proof.
  apply evaluate_reads_limit_fields_only; reflexivity.
Defined.

(** X20 with two listed types, an unlisted type, and the unlisted type
    [constructor]. *)
Lemma supportsSubscribe_listed_types_witness :
  supportsSubscribe
    (addSupportedTypes ["yamcs.telemetry"; "yamcs.events"] [])
    (sampleObject "~sim~A") = OwnValue "yamcs.telemetry"
  /\ supportsSubscribe
       (addSupportedTypes ["yamcs.events"] []) (sampleObject "~sim~A")
     = NoMember
  /\ supportsSubscribe
       (addSupportedTypes ["yamcs.telemetry"; "yamcs.events"] [])
       {| identifier := {| key := "~sim~A" |}; type := "constructor" |}
     = InheritedMember "constructor".
Proof.
  split; [|split].
  - apply (proj1 (supportsSubscribe_listed_types
                    ["yamcs.telemetry"; "yamcs.events"]
                    (sampleObject "~sim~A"))).
    + simpl. auto.
    + discriminate.
  - apply (proj1 (proj2 (supportsSubscribe_listed_types ["yamcs.events"]
                           (sampleObject "~sim~A")))); not_listed.
  - apply (proj2 (proj2 (supportsSubscribe_listed_types
                           ["yamcs.telemetry"; "yamcs.events"]
                           {| identifier := {| key := "~sim~A" |};
                              type := "constructor" |}))).
    + left. not_listed.
    + simpl. auto.
Defined.
